(** * Blog front-end: category list view and site header

    A shallow embedding of the two React components of
    [src/pages/blog/CategoryList.tsx]:

    - [CategoryList]: the paginated list of the posts of one category;
    - [BlogHeader]: the site header with its search form and mobile menu.

    JavaScript strings are sequences of UTF-16 code units, the division of
    two numbers is the one of binary64 values, React state is a record
    threaded through the handlers, an [async] function is a finite tree of
    actions that suspends at its [await], and the component in its
    environment (router, parent, content API) is a labelled transition
    system whose labels are the calls that leave the component. *)

From Stdlib Require Import ZArith NArith List String Ascii Bool Lia.
From Stdlib Require Import SpecFloat Zpower.
From stdpp Require Import base option gmap.

Import ListNotations.
Local Open Scope Z_scope.

(** ** JavaScript strings *)

Module Js.

(** A string value is a sequence of 16-bit code units. *)
Definition code_unit := N.
Definition jsstring := list code_unit.

(** *** String literals

    The literals of the source file are written here as UTF-8 [string]s and
    decoded to code units.  [cont b] is the payload of a continuation byte. *)
Definition cont (b : ascii) : N := N.land (N_of_ascii b) 63.

(** Code units of the code point [cp]: itself in the basic plane, a
    surrogate pair above it. *)
Definition units_of_code_point (cp : N) : jsstring :=
  if (cp <? 65536)%N then [cp]
  else [(55296 + N.shiftr (cp - 65536) 10)%N;
        (56320 + N.land (cp - 65536) 1023)%N].

Fixpoint decode (s : string) : jsstring :=
  match s with
  | EmptyString => []
  | String a s1 =>
    let n := N_of_ascii a in
    if (n <? 128)%N then n :: decode s1
    else if (n <? 224)%N then
      match s1 with
      | String b s2 => (N.shiftl (N.land n 31) 6 + cont b)%N :: decode s2
      | _ => [65533%N]
      end
    else if (n <? 240)%N then
      match s1 with
      | String b (String c s3) =>
        (N.shiftl (N.land n 15) 12 + N.shiftl (cont b) 6 + cont c)%N
          :: decode s3
      | _ => [65533%N]
      end
    else
      match s1 with
      | String b (String c (String d s4)) =>
        units_of_code_point
          (N.shiftl (N.land n 7) 18 + N.shiftl (cont b) 12
           + N.shiftl (cont c) 6 + cont d)%N ++ decode s4
      | _ => [65533%N]
      end
  end.

Abbreviation js := decode.

(** The boolean value of a string: only the empty string is falsy. *)
Definition truthy (s : jsstring) : bool :=
  match s with [] => false | _ :: _ => true end.

(** *** [String.prototype.trim]

    ECMAScript strips the code units that are WhiteSpace or LineTerminator:
    TAB, LF, VT, FF, CR, SP, NBSP, U+1680, U+2000..U+200A, LS, PS, U+202F,
    U+205F, U+3000 and the byte order mark U+FEFF. *)
Definition is_white_space (c : code_unit) : bool :=
  ((9 <=? c) && (c <=? 13) || (c =? 32) || (c =? 160) || (c =? 5760)
   || (8192 <=? c) && (c <=? 8202) || (c =? 8232) || (c =? 8233)
   || (c =? 8239) || (c =? 8287) || (c =? 12288) || (c =? 65279))%N.

Fixpoint trimStart (s : jsstring) : jsstring :=
  match s with
  | c :: s' => if is_white_space c then trimStart s' else s
  | [] => []
  end.

Definition trimEnd (s : jsstring) : jsstring := rev (trimStart (rev s)).

Definition trim (s : jsstring) : jsstring := trimEnd (trimStart s).

End Js.

Import Js.

(** ** Data from the content API *)

(** Modelled from the spec: the types [Blog] and [Category] of [@/lib/types]
    are not part of the source at hand.  A post has an identifier and a
    title; a category has an identifier, a display name, an optional
    explanation text and an optional cover image. *)
Record Image := { url : jsstring }.

Record Category := {
  cat_id : jsstring;
  name : jsstring;
  explanation : option jsstring;
  image : option Image
}.

Record Blog := { blog_id : jsstring; blog_title : jsstring }.

(** The boolean value of an optional string: [undefined] and the empty
    string are falsy. *)
Definition truthy_opt (o : option jsstring) : bool :=
  match o with Some s => truthy s | None => false end.

(** ** The site header, [BlogHeader] *)

Module BlogHeader.

(** The three [useState] cells of the component. *)
Record State := {
  categories : list Category;
  menuOpen : bool;
  searchQuery : jsstring
}.

(** [useState([])], [useState(false)], [useState('')]. *)
Definition initial : State :=
  {| categories := []; menuOpen := false; searchQuery := [] |}.

(** What a handler does outside the component's own state: the calls
    [e.preventDefault()] and [router.push(target)] of [handleSearch], and
    the click that a category link leaves to the [Link] around it, which
    is given the [href] written in the source and resolves the address it
    goes to on its own. *)
Inductive Effect :=
| PreventDefault
| RouterPush (target : jsstring)
| FollowLink (href : jsstring).

(** [setMenuOpen((prevState) => !prevState)] *)
Definition toggleMenu (s : State) : State :=
  {| categories := categories s;
     menuOpen := negb (menuOpen s);
     searchQuery := searchQuery s |}.

(** [setSearchQuery(e.target.value)] *)
Definition setSearchQuery (v : jsstring) (s : State) : State :=
  {| categories := categories s; menuOpen := menuOpen s; searchQuery := v |}.

(** [handleSearch]: the effects in the order of the calls, and the state,
    which no setter touches. *)
Definition handleSearch (s : State) : list Effect * State :=
  (PreventDefault ::
   (if truthy (trim (searchQuery s))
    then [RouterPush (js "/blog/search?query=" ++ searchQuery s)]
    else []),
   s).

(** The controls of the rendered header and the handler each one is bound
    to.  The overlay, the close button, the mobile search form and the
    category links exist only while the menu is open. *)
Inductive Control :=
| Hamburger
| Overlay
| CloseButton
| CategoryLink (index : nat)
| SearchInput (mobile : bool) (value : jsstring)
| SearchForm (mobile : bool).

Definition rendered (s : State) (c : Control) : bool :=
  match c with
  | Hamburger => true
  | Overlay | CloseButton => menuOpen s
  | CategoryLink i => menuOpen s && (i <? length (categories s))%nat
  | SearchInput mobile _ | SearchForm mobile => negb mobile || menuOpen s
  end.

Definition activate (c : Control) (s : State) : list Effect * State :=
  match c with
  | Hamburger | Overlay | CloseButton => ([], toggleMenu s)
  | CategoryLink i =>
    match nth_error (categories s) i with
    | Some c => ([FollowLink (js "/blog/category/" ++ cat_id c)], toggleMenu s)
    | None => ([], s)
    end
  | SearchInput _ v => ([], setSearchQuery v s)
  | SearchForm _ => handleSearch s
  end.

(** The navigations among the effects of a handler. *)
Definition navigations (l : list Effect) : list jsstring :=
  flat_map (fun e => match e with RouterPush t => [t] | _ => [] end) l.

(** *** The mobile menu and the mounted header *)

(** A category link of the mobile menu: [key], the [href] of its [Link]
    and the text shown. *)
Record MenuLink := {
  link_key : jsstring;
  href : jsstring;
  text : jsstring
}.

(** [categories.map((category) => <li key=...><Link href=...>...)], inside
    [{menuOpen && (...)}]. *)
Definition links (s : State) : list MenuLink :=
  if menuOpen s
  then map (fun c => {| link_key := cat_id c;
                        href := js "/blog/category/" ++ cat_id c;
                        text := name c |})
           (categories s)
  else [].

(** [setCategories(data)] *)
Definition setCategories (data : list Category) (s : State) : State :=
  {| categories := data; menuOpen := menuOpen s;
     searchQuery := searchQuery s |}.

(** The header on the page: its state, and whether [fetchCategories] is
    still suspended at its [await]. *)
Record Mounted := {
  state : State;
  awaiting : bool
}.

Inductive Event :=
| GetCategories
| Caused (e : Effect).

(** The effect has the empty dependency array: its body runs once, after
    the first render. *)
Definition mount : list Event * Mounted :=
  ([GetCategories], {| state := initial; awaiting := true |}).

Inductive Input :=
| Activate (c : Control)
| CategoriesFulfilled (data : list Category)
| CategoriesRejected.

(** One turn of the event loop; [None] when the input cannot arrive: a
    control that is not on the page, an answer when none is awaited. *)
Definition step (i : Input) (h : Mounted) : option (list Event * Mounted) :=
  match i with
  | Activate c =>
    if rendered (state h) c then
      let '(effs, s) := activate c (state h) in
      Some (map Caused effs, {| state := s; awaiting := awaiting h |})
    else None
  | CategoriesFulfilled data =>
    if awaiting h
    then Some ([], {| state := setCategories data (state h);
                      awaiting := false |})
    else None
  | CategoriesRejected =>
    if awaiting h
    then Some ([], {| state := state h; awaiting := false |})
    else None
  end.

Fixpoint steps (l : list Input) (h : Mounted)
  : option (list (list Event) * Mounted) :=
  match l with
  | [] => Some ([], h)
  | i :: l' =>
    match step i h with
    | Some (evs, h1) =>
      match steps l' h1 with
      | Some (t, h2) => Some (evs :: t, h2)
      | None => None
      end
    | None => None
    end
  end.

(** The answer of [getCategories] delivered in a run, if any. *)
Fixpoint answer (l : list Input) : option (list Category) :=
  match l with
  | [] => None
  | CategoriesFulfilled data :: _ => Some data
  | CategoriesRejected :: _ => None
  | Activate _ :: l' => answer l'
  end.

(** The number of [getCategories] calls among events. *)
Definition category_list_requests (evs : list Event) : nat :=
  length (List.filter (fun e => match e with GetCategories => true
                                            | Caused _ => false end) evs).

End BlogHeader.

(** ** The category list view, [CategoryList] *)

Module CategoryList.

(** The four [useState] cells of the component. *)
Record State := {
  blogs : list Blog;
  category : option Category;
  currentPage : Z;
  totalPages : Z
}.

(** [useState([])], [useState(null)], [useState(1)], [useState(0)]. *)
Definition initial : State :=
  {| blogs := []; category := None; currentPage := 1; totalPages := 0 |}.

Definition blogsPerPage : Z := 10.

(** The answer of [getBlogsByCategory].  The counts are integers;
    [totalCount] is the integer sent, which the page reads as the number
    nearest to it ([of_Z] below). *)
Record BlogsData := { contents : list Blog; totalCount : Z }.

(** *** Numbers

    A JavaScript number is a binary64 value: 53 digits of mantissa,
    exponents below 1024, results rounded to the nearest value, to the
    even mantissa on a tie. *)
Definition number : Type := spec_float.

Definition prec : Z := 53.
Definition emax : Z := 1024.

(** The number an integer literal stands for. *)
Definition of_Z (n : Z) : number := binary_normalize prec emax n 0 false.

(** [x / y] *)
Definition divide (x y : number) : number := SFdiv prec emax x y.

(** [Math.ceil], read as an integer: the least integer that is at least
    the finite value [m * 2^e] (an infinity or a NaN, which no quotient of
    two finite counts is, is read as 0). *)
Definition Math_ceil (x : number) : Z :=
  match x with
  | S754_finite s m e =>
    let v := if s then Z.neg m else Z.pos m in
    if 0 <=? e then v * 2 ^ e else - ((- v) / 2 ^ (- e))
  | _ => 0
  end.

(** The mantissa of the number 10, which is [ten_m * 2^-49]. *)
Definition ten_m : positive := 5629499534213120.

(** [Math.ceil(data.totalCount / blogsPerPage)] *)
Definition pages_of (count : Z) : Z :=
  Math_ceil (divide (of_Z count) (of_Z blogsPerPage)).

Arguments pages_of : simpl never.

(** An integer that is a binary64 value: at most 53 digits from the first
    to the last that is not zero, and below 2^1024. *)
Definition is_number (n : Z) : bool :=
  let d := Z.log2 (Z.abs n) + 1 in
  (d <=? 53) || ((n mod 2 ^ (d - 53) =? 0) && (d <=? 1024)).

(** The first count whose tenth the division rounds below an integer it
    exceeds. *)
Definition first_miss : Z := 22517998136852492.

(** [Array.from] makes an array of a length below 2^32 and throws a
    [RangeError] from there on: the render returns when it does not come
    to that call, or the call returns. *)
Definition render_returns (pages : Z) : bool :=
  negb (1 <? pages) || (pages <? 2 ^ 32).

(** *** The asynchronous functions of the effect *)

(** A call of a state setter or of the [setIsLoading] prop. *)
Inductive Action :=
| SetIsLoading (isLoading : bool)
| SetBlogs (l : list Blog)
| SetTotalPages (n : Z)
| SetCategory (c : option Category).

(** The body of an [async] function: actions in sequence, suspended at
    each [await] of a content API call with the rest as continuation. *)
Inductive Async :=
| Return
| Do (a : Action) (k : Async)
| AwaitGetBlogsByCategory (id : jsstring) (page limit : Z)
    (k : BlogsData -> Async)
| AwaitGetCategory (id : jsstring) (k : option Category -> Async).

(** [fetchBlogs] after its [await]. *)
Definition fetchBlogs_resume (data : BlogsData) : Async :=
  Do (SetBlogs (contents data))
  (Do (SetTotalPages (pages_of (totalCount data)))
  (Do (SetIsLoading false)
  Return)).

(** [fetchBlogs]; [categoryId] is [undefined] or a string. *)
Definition fetchBlogs (categoryId : option jsstring) (page : Z) : Async :=
  match categoryId with
  | Some id =>
    if negb (truthy id) then Return
    else
      Do (SetIsLoading true)
      (AwaitGetBlogsByCategory id page blogsPerPage fetchBlogs_resume)
  | None => Return
  end.

(** [fetchCategory] after its [await]. *)
Definition fetchCategory_resume (data : option Category) : Async :=
  Do (SetCategory data) Return.

Definition fetchCategory (categoryId : option jsstring) : Async :=
  match categoryId with
  | Some id =>
    if negb (truthy id) then Return
    else AwaitGetCategory id fetchCategory_resume
  | None => Return
  end.

(** What one can observe of a run: the setter calls and the requests. *)
Inductive Event :=
| Did (a : Action)
| GetBlogsByCategory (id : jsstring) (page limit : Z)
| GetCategory (id : jsstring).

(** A setter call on the state; [setIsLoading] belongs to the container. *)
Definition perform (a : Action) (s : State) : State :=
  match a with
  | SetIsLoading _ => s
  | SetBlogs l =>
    {| blogs := l; category := category s;
       currentPage := currentPage s; totalPages := totalPages s |}
  | SetTotalPages n =>
    {| blogs := blogs s; category := category s;
       currentPage := currentPage s; totalPages := n |}
  | SetCategory c =>
    {| blogs := blogs s; category := c;
       currentPage := currentPage s; totalPages := totalPages s |}
  end.

(** A function suspended at its [await]: the request it waits for and the
    rest of its body. *)
Inductive Suspension :=
| AwaitingBlogs (id : jsstring) (page limit : Z) (k : BlogsData -> Async)
| AwaitingCategory (id : jsstring) (k : option Category -> Async).

(** Run a body up to its end or its next [await]. *)
Fixpoint run (p : Async) (s : State)
  : list Event * State * option Suspension :=
  match p with
  | Return => ([], s, None)
  | Do a k =>
    let '(evs, s', w) := run k (perform a s) in (Did a :: evs, s', w)
  | AwaitGetBlogsByCategory id page limit k =>
    ([GetBlogsByCategory id page limit], s,
     Some (AwaitingBlogs id page limit k))
  | AwaitGetCategory id k =>
    ([GetCategory id], s, Some (AwaitingCategory id k))
  end.

(** *** One call from start to end

    How a promise of the content API settles. *)
Inductive Settled (A : Type) :=
| Fulfilled (v : A)
| Rejected.
Arguments Fulfilled {A} v.
Arguments Rejected {A}.

Record Api := {
  getBlogsByCategory : jsstring -> Z -> Z -> Settled BlogsData;
  getCategory : jsstring -> Settled (option Category)
}.

(** The events of a whole call.  A rejected [await] throws: nothing of the
    body follows it. *)
Fixpoint trace (api : Api) (p : Async) : list Event :=
  match p with
  | Return => []
  | Do a k => Did a :: trace api k
  | AwaitGetBlogsByCategory id page limit k =>
    GetBlogsByCategory id page limit ::
    match getBlogsByCategory api id page limit with
    | Fulfilled data => trace api (k data)
    | Rejected => []
    end
  | AwaitGetCategory id k =>
    GetCategory id ::
    match getCategory api id with
    | Fulfilled data => trace api (k data)
    | Rejected => []
    end
  end.

(** How a suspended call goes on with the answers of [api]. *)
Definition resume_trace (api : Api) (w : option Suspension) : list Event :=
  match w with
  | None => []
  | Some (AwaitingBlogs id page limit k) =>
    match getBlogsByCategory api id page limit with
    | Fulfilled data => trace api (k data)
    | Rejected => []
    end
  | Some (AwaitingCategory id k) =>
    match getCategory api id with
    | Fulfilled data => trace api (k data)
    | Rejected => []
    end
  end.

(** *** Rendering *)

(** A page button: [key], the page its [onClick] hands to
    [handlePageChange], [className] and the number shown. *)
Record Button := {
  key : Z;
  onClick : Z;
  className : jsstring;
  label : Z
}.

(** A [BlogItem] of the list. *)
Record Item := { item_key : jsstring; blog : Blog }.

(** The list region: the [NoResults] placeholder or the [ul]. *)
Inductive Listing :=
| NoResults (query : jsstring)
| BlogList (items : list Item).

(** The [category-info] block: the paragraph and the image ([src], [alt]),
    each present or not. *)
Record CategoryInfo := {
  info_description : option jsstring;
  info_image : option (jsstring * jsstring)
}.

Record View := {
  title : list jsstring;
  meta_description : option jsstring;
  meta_keywords : jsstring;
  heading : jsstring;
  category_info : option CategoryInfo;
  listing : Listing;
  pagination : option (list Button)
}.

(** [Array.from({ length: totalPages }, (_, index) => <button ... />)] *)
Definition page_buttons (s : State) : list Button :=
  map (fun i : nat =>
         let index := Z.of_nat i in
         {| key := index + 1;
            onClick := index + 1;
            className :=
              js "page-button " ++
              (if currentPage s =? index + 1 then js "active" else []);
            label := index + 1 |})
      (seq 0 (Z.to_nat (totalPages s))).

(** The returned element.  [title] holds the three children of the
    [title] element: the conditional, the explicit space, the trailing
    text. *)
Definition render (s : State) : View :=
  {| title :=
       [match category s with
        | Some c => name c ++ js " のカテゴリ"
        | None => js "カテゴリ"
        end;
        js " ";
        js "| iU 学友会"];
     meta_description :=
       match category s with
       | Some c => explanation c
       | None => Some []
       end;
     meta_keywords :=
       js "学友会, " ++
       match category s with Some c => name c | None => [] end;
     heading := match category s with Some c => name c | None => [] end;
     category_info :=
       match category s with
       | Some c =>
         if truthy_opt (explanation c)
            || match image c with Some _ => true | None => false end
         then
           Some {| info_description :=
                     if truthy_opt (explanation c) then explanation c
                     else None;
                   info_image :=
                     match image c with
                     | Some i => Some (url i, name c)
                     | None => None
                     end |}
         else None
       | None => None
       end;
     listing :=
       if (length (blogs s) =? 0)%nat
       then NoResults
              match category s with
              | Some c => name c
              | None => js "このカテゴリ"
              end
       else BlogList
              (map (fun b => {| item_key := blog_id b; blog := b |})
                   (blogs s));
     pagination :=
       if 1 <? totalPages s then Some (page_buttons s) else None |}.

(** [Array.prototype.join] *)
Definition join (sep : jsstring) (l : list jsstring) : jsstring :=
  match l with
  | [] => []
  | x :: l' => x ++ flat_map (fun y => sep ++ y) l'
  end.

(** The title of the document in the browser: the head manager of
    [next/head] sets it to the children of [title] joined. *)
Definition document_title (v : View) : jsstring := join [] (title v).

(** The text of the [title] element in the page the server sends: the
    server renderer of React writes the text children of an element one
    after the other with a comment marker between two of them, and in a
    [title] element the marker is text. *)
Definition server_title (v : View) : jsstring :=
  join (js "<!-- -->") (title v).

(** The buttons on the page.  ([Array.from] makes no array of a length
    from 2^32 on: there the render throws a [RangeError].) *)
Definition buttons (v : View) : list Button :=
  match pagination v with Some l => l | None => [] end.

(** [handlePageChange]: [setCurrentPage(page)]. *)
Definition handlePageChange (page : Z) (s : State) : State :=
  {| blogs := blogs s; category := category s;
     currentPage := page; totalPages := totalPages s |}.

(** *** The mounted component

    The component with what surrounds it: the router's [categoryId], the
    identity of the [setIsLoading] prop, the dependencies the effect last
    ran with ([None] before the first commit) and the calls suspended at
    an [await], by request number. *)
Definition Deps : Type := option jsstring * nat * Z.

Record Mounted := {
  state : State;
  categoryId : option jsstring;
  setIsLoading : nat;
  deps : option Deps;
  inflight : gmap nat Suspension;
  next_request : nat
}.

(** The array [[categoryId, setIsLoading, currentPage]]. *)
Definition current_deps (m : Mounted) : Deps :=
  (categoryId m, setIsLoading m, currentPage (state m)).

(** Start or resume a body; a body that reaches an [await] is kept under a
    fresh request number. *)
Definition spawn (p : Async) (m : Mounted) : list Event * Mounted :=
  let '(evs, s, w) := run p (state m) in
  (evs,
   {| state := s;
      categoryId := categoryId m;
      setIsLoading := setIsLoading m;
      deps := deps m;
      inflight :=
        match w with
        | Some k => <[next_request m := k]> (inflight m)
        | None => inflight m
        end;
      next_request :=
        match w with
        | Some _ => S (next_request m)
        | None => next_request m
        end |}).

(** The body of the effect: [fetchBlogs(currentPage); fetchCategory();]. *)
Definition effect (m : Mounted) : list Event * Mounted :=
  let '(evs1, m1) :=
    spawn (fetchBlogs (categoryId m) (currentPage (state m))) m in
  let '(evs2, m2) := spawn (fetchCategory (categoryId m1)) m1 in
  (evs1 ++ evs2, m2).

Definition with_deps (d : option Deps) (m : Mounted) : Mounted :=
  {| state := state m; categoryId := categoryId m;
     setIsLoading := setIsLoading m; deps := d;
     inflight := inflight m; next_request := next_request m |}.

(** After a render React runs the effect when a dependency differs from
    the one of the last run. *)
Definition commit (m : Mounted) : list Event * Mounted :=
  if bool_decide (deps m = Some (current_deps m)) then ([], m)
  else effect (with_deps (Some (current_deps m)) m).

Definition mount (categoryId : option jsstring) (setIsLoading : nat)
  : list Event * Mounted :=
  commit {| state := initial; categoryId := categoryId;
            setIsLoading := setIsLoading; deps := None;
            inflight := ∅; next_request := 0 |}.

Definition with_state (s : State) (m : Mounted) : Mounted :=
  {| state := s; categoryId := categoryId m;
     setIsLoading := setIsLoading m; deps := deps m;
     inflight := inflight m; next_request := next_request m |}.

(** What arrives from outside the component. *)
Inductive Response :=
| BlogsFulfilled (data : BlogsData)
| CategoryFulfilled (data : option Category)
| Rejection.

Inductive Input :=
| ClickPage (index : nat)
| RouterQuery (categoryId : option jsstring)
| ParentRender (setIsLoading : nat)
| Settle (request : nat) (r : Response).

(** One turn of the event loop; [None] when the input cannot arrive: a
    click on a button that is not on the page, an answer to a request that
    is not pending or of the other kind. *)
Definition step (i : Input) (m : Mounted) : option (list Event * Mounted) :=
  match i with
  | ClickPage index =>
    match buttons (render (state m)) !! index with
    | Some b =>
      Some (commit (with_state (handlePageChange (onClick b) (state m)) m))
    | None => None
    end
  | RouterQuery q =>
    Some (commit {| state := state m; categoryId := q;
                    setIsLoading := setIsLoading m; deps := deps m;
                    inflight := inflight m;
                    next_request := next_request m |})
  | ParentRender f =>
    Some (commit {| state := state m; categoryId := categoryId m;
                    setIsLoading := f; deps := deps m;
                    inflight := inflight m;
                    next_request := next_request m |})
  | Settle n r =>
    let rest :=
      {| state := state m; categoryId := categoryId m;
         setIsLoading := setIsLoading m; deps := deps m;
         inflight := delete n (inflight m);
         next_request := next_request m |} in
    match inflight m !! n, r with
    | Some _, Rejection => Some ([], rest)
    | Some (AwaitingBlogs _ _ _ k), BlogsFulfilled data =>
      let '(evs1, m1) := spawn (k data) rest in
      let '(evs2, m2) := commit m1 in
      Some (evs1 ++ evs2, m2)
    | Some (AwaitingCategory _ k), CategoryFulfilled data =>
      let '(evs1, m1) := spawn (k data) rest in
      let '(evs2, m2) := commit m1 in
      Some (evs1 ++ evs2, m2)
    | _, _ => None
    end
  end.

(** The states of a mounted component. *)
Inductive reachable : Mounted -> Prop :=
| reachable_mount q f : reachable (snd (mount q f))
| reachable_step m i evs m' :
    reachable m -> step i m = Some (evs, m') -> reachable m'.

(** A run from a state, with the events of each turn. *)
Fixpoint steps (l : list Input) (m : Mounted)
  : option (list (list Event) * Mounted) :=
  match l with
  | [] => Some ([], m)
  | i :: l' =>
    match step i m with
    | Some (evs, m1) =>
      match steps l' m1 with
      | Some (t, m2) => Some (evs :: t, m2)
      | None => None
      end
    | None => None
    end
  end.

(** The posts requests among the events of a turn. *)
Definition posts_requests (evs : list Event) : list (jsstring * Z * Z) :=
  flat_map (fun e =>
              match e with
              | GetBlogsByCategory id page limit => [(id, page, limit)]
              | _ => []
              end) evs.

(** The two continuations the effect ever suspends. *)
Definition known (w : Suspension) : Prop :=
  (exists id page, w = AwaitingBlogs id page blogsPerPage fetchBlogs_resume)
  \/ (exists id, w = AwaitingCategory id fetchCategory_resume).

(** What every turn of the event loop keeps: the effect has run with the
    present dependencies, the page number is positive, and the suspended
    calls are calls of [fetchBlogs] and [fetchCategory]. *)
Definition invariant (m : Mounted) : Prop :=
  deps m = Some (current_deps m)
  /\ 1 <= currentPage (state m)
  /\ map_Forall (fun _ => known) (inflight m).

(** The events the effect issues for a category identifier and a page. *)
Definition effect_events (categoryId : option jsstring) (page : Z)
  : list Event :=
  match categoryId with
  | Some id =>
    if truthy id
    then [Did (SetIsLoading true);
          GetBlogsByCategory id page blogsPerPage;
          GetCategory id]
    else []
  | None => []
  end.

(** *** Two sessions

    The state a run leads to (the state itself when a turn of the run
    cannot happen). *)
Definition after (l : list Input) (m : Mounted) : Mounted :=
  match steps l m with Some (_, m') => m' | None => m end.

(** Category [a] holds 25 posts: mounted on it, with the first page of
    posts arrived, the view shows page 1 of 3. *)
Definition page_one_of_three : Mounted :=
  after [Settle 0 (BlogsFulfilled {| contents := []; totalCount := 25 |})]
        (snd (mount (Some (js "a")) 0)).

(** From there the visitor opens page 3, then category [b], which holds 5
    posts, and the posts of [b] arrive. *)
Definition stale_page : Mounted :=
  after [ClickPage 2;
         RouterQuery (Some (js "b"));
         Settle 4 (BlogsFulfilled {| contents := []; totalCount := 5 |})]
        page_one_of_three.

(** The current page is one of the pages there are. *)
Definition in_range (s : State) : Prop :=
  0 < totalPages s -> 1 <= currentPage s <= totalPages s.

(** A category whose total count is the number [first_miss], with the
    first page of posts arrived. *)
Definition huge_category : Mounted :=
  after [Settle 0 (BlogsFulfilled {| contents := [];
                                     totalCount := first_miss |})]
        (snd (mount (Some (js "a")) 0)).

(** *** Requests, loading signals and page marks *)

(** The content API calls among events. *)
Definition is_request (e : Event) : bool :=
  match e with Did _ => false | _ => true end.

Definition is_posts (w : Suspension) : bool :=
  match w with
  | AwaitingBlogs _ _ _ _ => true
  | AwaitingCategory _ _ => false
  end.

(** The posts requests that wait for their answer. *)
Definition pending_posts (m : Mounted) : nat :=
  size (filter (fun kw : nat * Suspension => is_posts (snd kw) = true)
               (inflight m)).

(** The calls [setIsLoading(b)] among events. *)
Definition loading_signals (b : bool) (evs : list Event) : nat :=
  length (List.filter (fun e => match e with
                                | Did (SetIsLoading b') => Bool.eqb b b'
                                | _ => false
                                end) evs).

Definition is_rejection (i : Input) : bool :=
  match i with Settle _ Rejection => true | _ => false end.

(** Request numbers from [next_request] on are unused. *)
Definition fresh (m : Mounted) : Prop :=
  forall n, (next_request m <= n)%nat -> inflight m !! n = None.


(** The posts requests rejected in a run from [m]. *)
Fixpoint dropped_posts (l : list Input) (m : Mounted) : nat :=
  match l with
  | [] => 0
  | i :: l' =>
    (match i with
     | Settle n Rejection =>
       match inflight m !! n with
       | Some w => if is_posts w then 1 else 0
       | None => 0
       end
     | _ => 0
     end
     + match step i m with
       | Some (_, m1) => dropped_posts l' m1
       | None => 0
       end)%nat
  end.

(** The events and the pending calls of a run of the effect. *)
Definition fetching (id : jsstring) (page : Z) (m m' : Mounted)
    (evs : list Event) : Prop :=
  truthy id = true
  /\ evs = [Did (SetIsLoading true);
            GetBlogsByCategory id page blogsPerPage;
            GetCategory id]
  /\ inflight m' =
       <[S (next_request m) := AwaitingCategory id fetchCategory_resume]>
         (<[next_request m :=
              AwaitingBlogs id page blogsPerPage fetchBlogs_resume]>
            (inflight m))
  /\ next_request m' = S (S (next_request m)).

End CategoryList.

(** * Properties *)

(** ** Strings *)

(** Sanity checks of the literal decoder and of [trim]. *)
Example decode_ascii : js "music" = [109; 117; 115; 105; 99]%N.
Proof. reflexivity. Qed.

Example decode_kanji : js "学友会" = [23398; 21451; 20250]%N.
Proof. reflexivity. Qed.

Example trim_both_ends : trim (js "  a b " ++ [9; 10]%N) = js "a b".
Proof. reflexivity. Qed.

Example trim_ideographic_space : trim (12288%N :: js "x") = js "x".
Proof. reflexivity. Qed.

Lemma trimStart_nil (s : jsstring) :
  trimStart s = [] <-> forallb is_white_space s = true.
Proof.
  induction s as [|c s IH]; simpl.
  - tauto.
  - destruct (is_white_space c); simpl.
    + exact IH.
    + split; discriminate.
Qed.

Lemma trimStart_head (s t : jsstring) (c : code_unit) :
  trimStart s = c :: t -> is_white_space c = false.
Proof.
  induction s as [|d s IH]; simpl; [discriminate|].
  destruct (is_white_space d) eqn:E; [exact IH|].
  intros [= <- _]. exact E.
Qed.

Lemma forallb_rev {A} (f : A -> bool) (l : list A) :
  forallb f (rev l) = forallb f l.
Proof.
  induction l as [|x l IH]; simpl; [reflexivity|].
  rewrite forallb_app, IH. simpl. rewrite andb_true_r. apply andb_comm.
Qed.

(** The trimmed text is empty exactly for the empty and the
    whitespace-only texts. *)
Lemma trim_nil (s : jsstring) :
  trim s = [] <-> forallb is_white_space s = true.
Proof.
  unfold trim, trimEnd. split.
  - intros H. apply trimStart_nil.
    destruct (trimStart s) as [|c t] eqn:E; [reflexivity|exfalso].
    apply (f_equal (@rev code_unit)) in H. rewrite rev_involutive in H.
    change (rev []) with (@nil code_unit) in H. apply trimStart_nil in H.
    rewrite forallb_rev in H. simpl in H.
    rewrite (trimStart_head _ _ _ E) in H. discriminate.
  - intros H. apply trimStart_nil in H. rewrite H. reflexivity.
Qed.

Lemma truthy_nil (s : jsstring) : truthy s = false <-> s = [].
Proof. destruct s; simpl; split; congruence. Qed.

(** ** The site header *)

Section Header.
Import BlogHeader.

(** C6: a search submitted with a text whose trimmed value is empty, that
    is an empty or whitespace-only text, prevents the default form
    navigation and does nothing else: no navigation is issued and the
    state of the header is the one before, from either of the two forms. *)
Theorem blank_search_is_ignored (s : State) (mobile : bool) :
  trim (searchQuery s) = [] ->
  forallb is_white_space (searchQuery s) = true
  /\ handleSearch s = ([PreventDefault], s)
  /\ activate (SearchForm mobile) s = ([PreventDefault], s)
  /\ navigations (fst (handleSearch s)) = [].
Proof.
  intros H. split; [apply trim_nil; exact H|].
  unfold activate, handleSearch. rewrite H. simpl. auto.
Qed.

Lemma blank_search_is_ignored_witness :
  let s := {| categories := []; menuOpen := false;
              searchQuery := js "  " |} in
  forallb is_white_space (searchQuery s) = true
  /\ handleSearch s = ([PreventDefault], s)
  /\ activate (SearchForm true) s = ([PreventDefault], s)
  /\ navigations (fst (handleSearch s)) = [].
Proof.
  intros s. apply (blank_search_is_ignored s true). reflexivity.
Defined.

(** C7: a search submitted with a text whose trimmed value is not empty
    navigates exactly once, to [/blog/search?query=] followed by the stored
    text as it is, neither trimmed nor encoded; the state is unchanged. *)
Theorem search_navigates_once_to_raw_query (s : State) (mobile : bool) :
  trim (searchQuery s) <> [] ->
  handleSearch s =
    ([PreventDefault; RouterPush (js "/blog/search?query=" ++ searchQuery s)],
     s)
  /\ activate (SearchForm mobile) s = handleSearch s
  /\ navigations (fst (handleSearch s)) =
       [js "/blog/search?query=" ++ searchQuery s].
Proof.
  intros H. unfold activate, handleSearch.
  destruct (truthy (trim (searchQuery s))) eqn:E.
  - simpl. auto.
  - apply truthy_nil in E. contradiction.
Qed.

Lemma search_navigates_once_to_raw_query_witness :
  let s := {| categories := []; menuOpen := true;
              searchQuery := js " rock & roll " |} in
  trim (searchQuery s) = js "rock & roll"
  /\ navigations (fst (handleSearch s)) =
       [js "/blog/search?query= rock & roll "].
Proof.
  intros s. split; [reflexivity|].
  apply (search_navigates_once_to_raw_query s true).
  vm_compute. discriminate.
Defined.

(** C10: the hamburger is always on the page and its handler negates the
    menu flag: activating it twice gives back the state, and activating it
    on an open menu closes the menu. *)
Theorem hamburger_negates_menu_flag (s : State) :
  rendered s Hamburger = true
  /\ activate Hamburger s = ([], toggleMenu s)
  /\ menuOpen (toggleMenu s) = negb (menuOpen s)
  /\ snd (activate Hamburger (snd (activate Hamburger s))) = s
  /\ menuOpen
       (snd (activate Hamburger
               {| categories := categories s; menuOpen := true;
                  searchQuery := searchQuery s |})) = false.
Proof.
  destruct s as [cs o q]. unfold activate, toggleMenu. simpl.
  repeat split. rewrite negb_involutive. reflexivity.
Qed.

End Header.

(** ** The category list view *)

Section CategoryListView.
Import CategoryList.

(** *** The page count *)

(** The stored page count of some total counts. *)
Example pages_of_small :
  map pages_of [0; 1; 10; 11; 25; 9007199254740991]
  = [0; 1; 1; 2; 3; 900719925474100].
Proof. vm_compute. reflexivity. Qed.

Example pages_of_large :
  map pages_of [22517998136852488; 22517998136852492; 100000000000000048]
  = [2251799813685249; 2251799813685249; 10000000000000004].
Proof. vm_compute. reflexivity. Qed.

Lemma digits2_size (p : positive) : digits2_pos p = Pos.size p.
Proof. induction p; simpl; congruence. Qed.

Lemma digits_of_bounds (p : positive) (k : Z) :
  2 ^ (k - 1) <= Z.pos p < 2 ^ k -> 0 < k -> Z.pos (digits2_pos p) = k.
Proof.
  intros [L U] K. rewrite digits2_size.
  pose proof (Pos.size_gt p) as G. pose proof (Pos.size_le p) as S.
  apply Pos2Z.pos_lt_pos in G. apply Pos2Z.pos_le_pos in S.
  rewrite Pos2Z.inj_pow in G, S. rewrite (Pos2Z.inj_xO p) in S.
  set (s := Z.pos (Pos.size p)) in *.
  assert (Hs : 0 < s) by (unfold s; lia). clearbody s.
  destruct (Z.lt_trichotomy s k) as [C|[C|C]]; [|assumption|]; exfalso.
  - assert (2 ^ s <= 2 ^ (k - 1)) by (apply Z.pow_le_mono_r; lia). lia.
  - assert (2 ^ k <= 2 ^ (s - 1)) by (apply Z.pow_le_mono_r; lia).
    replace s with (s - 1 + 1) in S by lia.
    rewrite Z.pow_add_r in S by lia. lia.
Qed.

Lemma fexp_normal (x : Z) : -1021 <= x -> fexp prec emax x = x - 53.
Proof. intros H. unfold fexp, emin, prec, emax. lia. Qed.

Lemma loc_of_record (m : Z) (l : location) :
  loc_of_shr_record (shr_record_of_loc m l) = l
  /\ shr_m (shr_record_of_loc m l) = m.
Proof. destruct l as [|[]]; split; reflexivity. Qed.

(** A mantissa of 53 digits is rounded in place. *)
Lemma round_aux_53 (s : bool) (q : positive) (e : Z) (l : location)
      (M : positive) :
  Z.pos (digits2_pos q) = 53 ->
  -1074 <= e <= 971 ->
  round_nearest_even (Z.pos q) l = Z.pos M ->
  Z.pos (digits2_pos M) = 53 ->
  binary_round_aux prec emax s (Z.pos q) e l = S754_finite s M e.
Proof.
  intros D E R DM. unfold binary_round_aux, shr_fexp.
  cbn [Zdigits2]. rewrite D, fexp_normal by lia.
  replace (53 + e - 53 - e) with 0 by lia. cbn [shr].
  destruct (loc_of_record (Z.pos q) l) as [-> ->]. rewrite R.
  cbn [Zdigits2]. rewrite DM, fexp_normal by lia.
  replace (53 + e - 53 - e) with 0 by lia. cbn [shr shr_record_of_loc shr_m].
  replace (e <=? emax - prec) with true; [reflexivity|].
  symmetry. apply Z.leb_le. unfold emax, prec. lia.
Qed.

Lemma shr_1_spec (q : positive) (r s : bool) :
  shr_1 {| shr_m := Z.pos q; shr_r := r; shr_s := s |}
  = {| shr_m := Z.pos q / 2; shr_r := Z.odd (Z.pos q); shr_s := r || s |}.
Proof.
  destruct q as [p|p|]; cbn [shr_1].
  - f_equal. rewrite Pos2Z.inj_xI.
    apply Z.div_unique with (r := 1); lia.
  - f_equal. rewrite Pos2Z.inj_xO.
    apply Z.div_unique with (r := 0); lia.
  - reflexivity.
Qed.

(** A mantissa of 54 digits loses its last digit to the rounding. *)
Lemma round_aux_54 (s : bool) (q : positive) (e : Z) (l : location)
      (M : positive) :
  Z.pos (digits2_pos q) = 54 ->
  -1074 <= e <= 970 ->
  round_nearest_even (Z.pos q / 2)
    (loc_of_shr_record
       {| shr_m := Z.pos q / 2; shr_r := Z.odd (Z.pos q);
          shr_s := shr_r (shr_record_of_loc (Z.pos q) l)
                   || shr_s (shr_record_of_loc (Z.pos q) l) |}) = Z.pos M ->
  Z.pos (digits2_pos M) = 53 ->
  binary_round_aux prec emax s (Z.pos q) e l = S754_finite s M (e + 1).
Proof.
  intros D E R DM. unfold binary_round_aux, shr_fexp.
  cbn [Zdigits2]. rewrite D, fexp_normal by lia.
  replace (54 + e - 53 - e) with 1 by lia. cbn [shr SpecFloat.iter_pos].
  assert (S1 : shr_1 (shr_record_of_loc (Z.pos q) l)
               = {| shr_m := Z.pos q / 2; shr_r := Z.odd (Z.pos q);
                    shr_s := shr_r (shr_record_of_loc (Z.pos q) l)
                             || shr_s (shr_record_of_loc (Z.pos q) l) |}).
  { destruct l as [|[]]; apply shr_1_spec. }
  rewrite S1. cbn [shr_m]. rewrite R.
  cbn [Zdigits2]. rewrite DM, fexp_normal by lia.
  replace (53 + (e + 1) - 53 - (e + 1)) with 0 by lia.
  cbn [shr shr_record_of_loc shr_m].
  replace (e + 1 <=? emax - prec) with true; [reflexivity|].
  symmetry. apply Z.leb_le. unfold emax, prec. lia.
Qed.

(** The double of a positive integer below 2^53 is the integer itself. *)
Lemma of_Z_small (p : positive) :
  Z.pos p < 2 ^ 53 ->
  exists (N : positive) (k : Z),
    of_Z (Z.pos p) = S754_finite false N (- k)
    /\ 0 <= k <= 52
    /\ Z.pos N = Z.pos p * 2 ^ k
    /\ 2 ^ 52 <= Z.pos N < 2 ^ 53.
Proof.
  intros U. unfold of_Z, binary_normalize, binary_round, shl_align.
  remember (Z.pos (digits2_pos p)) as d eqn:Hd.
  assert (B : 2 ^ (d - 1) <= Z.pos p < 2 ^ d).
  { rewrite Hd. rewrite digits2_size.
    pose proof (Pos.size_gt p) as G. pose proof (Pos.size_le p) as S.
    apply Pos2Z.pos_lt_pos in G. apply Pos2Z.pos_le_pos in S.
    rewrite Pos2Z.inj_pow in G, S. rewrite (Pos2Z.inj_xO p) in S.
    set (s := Z.pos (Pos.size p)) in *.
    assert (Hs : 0 < s) by (unfold s; lia). clearbody s.
    replace s with (s - 1 + 1) in S at 1 by lia.
    rewrite Z.pow_add_r in S by lia. lia. }
  assert (D : 1 <= d <= 53).
  { split; [lia|].
    destruct (Z.le_gt_cases d 53) as [?|C]; [assumption|exfalso].
    assert (2 ^ 53 <= 2 ^ (d - 1)) by (apply Z.pow_le_mono_r; lia). lia. }
  rewrite fexp_normal by lia.
  destruct (d + 0 - 53 - 0) as [|x|x] eqn:X; [|lia|].
  - exists p, 0. assert (d = 53) by lia.
    replace (-0) with 0 by reflexivity.
    rewrite Z.mul_1_r. replace (53 - 1) with 52 in * by reflexivity.
    split.
    + apply round_aux_53; try lia; try reflexivity.
    + replace d with 53 in B by lia. simpl in B |- *. lia.
  - remember (Z.pos x) as k eqn:Hk. assert (K : d = 53 - k) by lia.
    exists (Pos.iter xO p x), k.
    assert (V : Z.pos (Pos.iter xO p x) = Z.pos p * 2 ^ k).
    { change (Pos.iter xO p x) with (shift_pos x p).
      rewrite shift_pos_correct. rewrite Hk, Z.pow_pos_fold.
      apply Z.mul_comm. }
    assert (R : 2 ^ 52 <= Z.pos p * 2 ^ k < 2 ^ 53).
    { assert (P : 0 < 2 ^ k) by (apply Z.pow_pos_nonneg; lia).
      assert (E1 : 2 ^ 52 = 2 ^ (d - 1) * 2 ^ k).
      { rewrite <- Z.pow_add_r by lia. f_equal. lia. }
      assert (E2 : 2 ^ 53 = 2 ^ d * 2 ^ k).
      { rewrite <- Z.pow_add_r by lia. f_equal. lia. }
      rewrite E1, E2. split.
      - apply Z.mul_le_mono_nonneg_r; lia.
      - apply Z.mul_lt_mono_pos_r; lia. }
    assert (DN : Z.pos (digits2_pos (Pos.iter xO p x)) = 53).
    { apply digits_of_bounds; [|lia]. rewrite V. exact R. }
    split; [|split; [lia|split; [exact V|rewrite V; exact R]]].
    replace (d + 0 - 53) with (- k) by lia.
    apply round_aux_53; try assumption; try lia. reflexivity.
Qed.

Lemma round_aux_53_Z (s : bool) (q e : Z) (l : location) (M : Z) :
  2 ^ 52 <= q < 2 ^ 53 ->
  -1074 <= e <= 971 ->
  round_nearest_even q l = M ->
  2 ^ 52 <= M < 2 ^ 53 ->
  binary_round_aux prec emax s q e l = S754_finite s (Z.to_pos M) e.
Proof.
  intros Q E R HM.
  destruct q as [|qp|qp]; try (simpl in Q; lia).
  assert (PM : M = Z.pos (Z.to_pos M)) by (rewrite Z2Pos.id; simpl in HM; lia).
  apply round_aux_53; try assumption.
  - apply digits_of_bounds; [exact Q|lia].
  - congruence.
  - apply digits_of_bounds; [rewrite <- PM; exact HM|lia].
Qed.

Lemma round_aux_54_Z (s : bool) (q e : Z) (l : location) (M : Z) :
  2 ^ 53 <= q < 2 ^ 54 ->
  -1074 <= e <= 970 ->
  round_nearest_even (q / 2)
    (loc_of_shr_record
       {| shr_m := q / 2; shr_r := Z.odd q;
          shr_s := shr_r (shr_record_of_loc q l)
                   || shr_s (shr_record_of_loc q l) |}) = M ->
  2 ^ 52 <= M < 2 ^ 53 ->
  binary_round_aux prec emax s q e l = S754_finite s (Z.to_pos M) (e + 1).
Proof.
  intros Q E R HM.
  destruct q as [|qp|qp]; try (simpl in Q; lia).
  assert (PM : M = Z.pos (Z.to_pos M)) by (rewrite Z2Pos.id; simpl in HM; lia).
  apply round_aux_54; try assumption.
  - apply digits_of_bounds; [exact Q|lia].
  - congruence.
  - apply digits_of_bounds; [rewrite <- PM; exact HM|lia].
Qed.

Lemma of_Z_ten : of_Z blogsPerPage = S754_finite false ten_m (-49).
Proof. vm_compute. reflexivity. Qed.

Lemma div_core (N : positive) (k : Z) :
  2 ^ 52 <= Z.pos N < 2 ^ 53 ->
  -2 <= k <= 52 ->
  SFdiv_core_binary prec emax (Z.pos N) (- k) (Z.pos ten_m) (-49)
  = (Z.pos N * 2 ^ 53 / Z.pos ten_m, - 4 - k,
     new_location (Z.pos ten_m) ((Z.pos N * 2 ^ 53) mod Z.pos ten_m)).
Proof.
  intros R K. unfold SFdiv_core_binary. cbv zeta.
  cbn [Zdigits2].
  rewrite (digits_of_bounds N 53) by (try exact R; lia).
  change (Z.pos (digits2_pos ten_m)) with 53.
  rewrite fexp_normal by lia.
  replace (Z.min (53 + - k - (53 + -49) - 53) (- k - -49)) with (- 4 - k)
    by lia.
  replace (- k - -49 - (- 4 - k)) with 53 by lia.
  rewrite Z.shiftl_mul_pow2 by lia.
  unfold Z.div, Z.modulo.
  destruct (Z.div_eucl (Z.pos N * 2 ^ 53) (Z.pos ten_m)) as [q r].
  reflexivity.
Qed.

Lemma new_location_ten (t : Z) :
  0 <= t <= 4 ->
  new_location (Z.pos ten_m) (1125899906842624 * t)
  = if t =? 0 then loc_Exact
    else loc_Inexact (if t <=? 2 then Lt else Gt).
Proof.
  intros T.
  assert (C : t = 0 \/ t = 1 \/ t = 2 \/ t = 3 \/ t = 4) by lia.
  destruct C as [->|[->|[->|[->| ->]]]]; vm_compute; reflexivity.
Qed.

(** The quotient of a double by ten: a mantissa [M] at exponent
    [- j - k], half a unit in the last place from the exact quotient. *)
Lemma div_ten_rounds (N : positive) (k : Z) :
  2 ^ 52 <= Z.pos N < 2 ^ 53 ->
  -2 <= k <= 52 ->
  exists M j,
    SFdiv prec emax (S754_finite false N (- k)) (S754_finite false ten_m (-49))
    = S754_finite false (Z.to_pos M) (- j - k)
    /\ 0 < M
    /\ ((j = 4 /\ -5 <= 10 * M - 16 * Z.pos N <= 5)
        \/ (j = 3 /\ -5 <= 10 * M - 8 * Z.pos N <= 5
            /\ 5629499534213120 <= Z.pos N)).
Proof.
  intros R K. cbn [SFdiv]. rewrite div_core by assumption. cbn [xorb].
  set (a := Z.pos N * 2 ^ 53).
  pose proof (Z.div_mod a (Z.pos ten_m) ltac:(discriminate)) as D.
  pose proof (Z.mod_pos_bound a (Z.pos ten_m) ltac:(reflexivity)) as B.
  set (q := a / Z.pos ten_m) in *. set (r := a mod Z.pos ten_m) in *.
  clearbody q r. subst a.
  change (2 ^ 53) with 9007199254740992 in D.
  change (2 ^ 52) with 4503599627370496 in R.
  change (2 ^ 53) with 9007199254740992 in R.
  change (Z.pos ten_m) with 5629499534213120 in D, B.
  remember (8 * Z.pos N - 5 * q) as t eqn:Ht.
  assert (Hr : r = 1125899906842624 * t) by lia.
  assert (T : 0 <= t <= 4) by lia.
  rewrite Hr, new_location_ten by exact T.
  destruct (Z.lt_ge_cases q (2 ^ 53)) as [Q|Q];
    change (2 ^ 53) with 9007199254740992 in Q.
  - (* 53 digits *)
    exists (round_nearest_even q
              (if t =? 0 then loc_Exact
               else loc_Inexact (if t <=? 2 then Lt else Gt))), 4.
    assert (M : -5 <= 10 * round_nearest_even q
                  (if t =? 0 then loc_Exact
                   else loc_Inexact (if t <=? 2 then Lt else Gt))
                  - 16 * Z.pos N <= 5
                /\ 2 ^ 52 <= round_nearest_even q
                     (if t =? 0 then loc_Exact
                      else loc_Inexact (if t <=? 2 then Lt else Gt))
                   < 2 ^ 53).
    { change (2 ^ 52) with 4503599627370496.
      change (2 ^ 53) with 9007199254740992.
      destruct (Z.eqb_spec t 0); [cbn [round_nearest_even]; lia|].
      destruct (Z.leb_spec t 2); cbn [round_nearest_even]; lia. }
    destruct M as [M1 M2].
    split; [|split; [change (2 ^ 52) with 4503599627370496 in M2; lia
                    |left; split; [reflexivity|exact M1]]].
    apply round_aux_53_Z; try lia; try reflexivity; try assumption.
  - (* 54 digits *)
    set (l := if t =? 0 then loc_Exact
              else loc_Inexact (if t <=? 2 then Lt else Gt)).
    set (M := round_nearest_even (q / 2)
                (loc_of_shr_record
                   {| shr_m := q / 2; shr_r := Z.odd q;
                      shr_s := shr_r (shr_record_of_loc q l)
                               || shr_s (shr_record_of_loc q l) |})).
    exists M, 3.
    assert (HM : -5 <= 10 * M - 8 * Z.pos N <= 5
                 /\ 2 ^ 52 <= M < 2 ^ 53).
    { change (2 ^ 52) with 4503599627370496.
      change (2 ^ 53) with 9007199254740992.
      subst M l.
      destruct (Z.odd q) eqn:O.
      - apply Z.odd_spec in O. destruct O as [h O].
        assert (Hh : q / 2 = h)
          by (subst q; symmetry; apply Z.div_unique with (r := 1); lia).
        rewrite Hh.
        destruct (Z.eqb_spec t 0); [lia|].
        destruct (Z.leb_spec t 2);
          cbn [shr_record_of_loc shr_r shr_s orb loc_of_shr_record
               round_nearest_even]; lia.
      - assert (E : Z.even q = true) by (rewrite <- Z.negb_odd, O; reflexivity).
        apply Z.even_spec in E. destruct E as [h E].
        assert (Hh : q / 2 = h)
          by (subst q; symmetry; apply Z.div_unique with (r := 0); lia).
        rewrite Hh.
        destruct (Z.eqb_spec t 0);
          [cbn [shr_record_of_loc shr_r shr_s orb loc_of_shr_record
                round_nearest_even]; lia|].
        destruct (Z.leb_spec t 2);
          cbn [shr_record_of_loc shr_r shr_s orb loc_of_shr_record
               round_nearest_even]; lia. }
    destruct HM as [M1 M2].
    split; [|split; [change (2 ^ 52) with 4503599627370496 in M2; lia
                    |right; split; [reflexivity|split; [exact M1|lia]]]].
    replace (- (3) - k) with (- 4 - k + 1) by lia.
    apply round_aux_54_Z; try lia; try reflexivity; try assumption.
Qed.

Lemma ceil_close (M n P X : Z) :
  8 <= P -> 0 <= n -> X = n * P -> -5 <= 10 * M - X <= 5 ->
  - ((- M) / P) = (n + 9) / 10.
Proof.
  intros HP Hn -> H.
  set (c := (n + 9) / 10).
  assert (C : 10 * (c - 1) < n <= 10 * c).
  { pose proof (Z.div_mod (n + 9) 10 ltac:(lia)).
    pose proof (Z.mod_pos_bound (n + 9) 10 ltac:(lia)). unfold c. lia. }
  assert (U : n * P <= 10 * c * P) by (apply Z.mul_le_mono_nonneg_r; lia).
  assert (L : (10 * c - 9) * P <= n * P)
    by (apply Z.mul_le_mono_nonneg_r; lia).
  assert (E : (- M) / P = - c).
  { symmetry. apply Z.div_unique with (r := c * P - M); lia. }
  rewrite E. lia.
Qed.

Lemma Math_ceil_finite (M E : Z) :
  0 < M -> E < 0 ->
  Math_ceil (S754_finite false (Z.to_pos M) E) = - ((- M) / 2 ^ (- E)).
Proof.
  intros HM HE. unfold Math_ceil.
  destruct (Z.leb_spec 0 E); [lia|].
  rewrite Z2Pos.id by lia. reflexivity.
Qed.


Lemma round_aux_55 (s : bool) (q e : Z) :
  2 ^ 54 <= q < 2 ^ 55 ->
  q mod 4 = 0 ->
  -1074 <= e <= 969 ->
  binary_round_aux prec emax s q e loc_Exact
  = S754_finite s (Z.to_pos (q / 4)) (e + 2).
Proof.
  intros Q Z4 E.
  change (2 ^ 54) with 18014398509481984 in Q.
  change (2 ^ 55) with 36028797018963968 in Q.
  destruct q as [|qp|qp]; try lia.
  pose proof (Z.div_mod (Z.pos qp) 4 ltac:(lia)) as D.
  set (h := Z.pos qp / 4) in *.
  assert (H2 : Z.pos qp / 2 = 2 * h)
    by (symmetry; apply Z.div_unique with (r := 0); lia).
  assert (H4 : 2 * h / 2 = h)
    by (symmetry; apply Z.div_unique with (r := 0); lia).
  assert (Hh : h = Z.pos (Z.to_pos h)) by (rewrite Z2Pos.id; lia).
  assert (Dq : Z.pos (digits2_pos qp) = 55).
  { apply digits_of_bounds; [|lia].
    change (2 ^ (55 - 1)) with 18014398509481984.
    change (2 ^ 55) with 36028797018963968. lia. }
  assert (Dh : Z.pos (digits2_pos (Z.to_pos h)) = 53).
  { apply digits_of_bounds; [|lia]. rewrite <- Hh.
    change (2 ^ (53 - 1)) with 4503599627370496.
    change (2 ^ 53) with 9007199254740992. lia. }
  unfold binary_round_aux, shr_fexp.
  cbn [Zdigits2]. rewrite Dq, fexp_normal by lia.
  replace (55 + e - 53 - e) with 2 by lia.
  cbn [shr SpecFloat.iter_pos shr_record_of_loc].
  rewrite shr_1_spec, H2.
  assert (O1 : Z.odd (Z.pos qp) = false).
  { replace (Z.pos qp) with (2 * (2 * h)) by lia.
    rewrite Z.odd_mul. reflexivity. }
  rewrite O1. cbn [orb].
  assert (S2 : shr_1 {| shr_m := 2 * h; shr_r := false; shr_s := false |}
               = {| shr_m := h; shr_r := false; shr_s := false |}).
  { rewrite Hh at 1. rewrite <- Pos2Z.inj_mul.
    rewrite shr_1_spec. rewrite Pos2Z.inj_mul, <- Hh, H4.
    rewrite Z.odd_mul. reflexivity. }
  rewrite S2. cbn [shr_m loc_of_shr_record round_nearest_even].
  rewrite Hh at 1 2. cbn [Zdigits2]. rewrite Dh, fexp_normal by lia.
  replace (53 + (e + 2) - 53 - (e + 2)) with 0 by lia.
  cbn [shr shr_record_of_loc shr_m].
  replace (e + 2 <=? emax - prec) with true; [reflexivity|].
  symmetry. apply Z.leb_le. unfold emax, prec. lia.
Qed.

(** The double of a positive number below 2^55 is the number itself: a
    mantissa [N] of 53 digits at the exponent [- k]. *)
Lemma of_Z_number (p : positive) :
  Z.pos p < 2 ^ 55 ->
  is_number (Z.pos p) = true ->
  exists (N : positive) (k : Z),
    of_Z (Z.pos p) = S754_finite false N (- k)
    /\ -2 <= k <= 52
    /\ 2 ^ 52 <= Z.pos N < 2 ^ 53
    /\ ((0 <= k /\ Z.pos N = Z.pos p * 2 ^ k)
        \/ (k = -1 /\ Z.pos p = 2 * Z.pos N)
        \/ (k = -2 /\ Z.pos p = 4 * Z.pos N)).
Proof.
  intros U I.
  destruct (Z.lt_ge_cases (Z.pos p) (2 ^ 53)) as [S|S].
  { destruct (of_Z_small p S) as (N & k & E & K & V & R).
    exists N, k. split; [exact E|]. split; [lia|]. split; [exact R|].
    left. split; [lia|exact V]. }
  unfold is_number in I. cbv zeta in I.
  change (Z.abs (Z.pos p)) with (Z.pos p) in I.
  change (2 ^ 53) with 9007199254740992 in S.
  change (2 ^ 55) with 36028797018963968 in U.
  destruct (Z.lt_ge_cases (Z.pos p) (2 ^ 54)) as [T|T];
    change (2 ^ 54) with 18014398509481984 in T.
  - (* 54 digits *)
    assert (L : Z.log2 (Z.pos p) = 53).
    { apply Z.log2_unique; [lia|].
      change (2 ^ 53) with 9007199254740992.
      change (2 ^ (53 + 1)) with 18014398509481984. lia. }
    rewrite L in I. change (53 + 1 <=? 53) with false in I.
    change (2 ^ (53 + 1 - 53)) with 2 in I. cbn [orb] in I.
    apply andb_true_iff in I. destruct I as [I _]. apply Z.eqb_eq in I.
    pose proof (Z.div_mod (Z.pos p) 2 ltac:(lia)) as D.
    set (h := Z.pos p / 2) in *.
    exists (Z.to_pos h), (-1).
    assert (Hh : h = Z.pos (Z.to_pos h)) by (rewrite Z2Pos.id; lia).
    split; [|split; [lia|split; [|right; left; split; [reflexivity|lia]]]].
    + unfold of_Z, binary_normalize, binary_round, shl_align.
      assert (Dp : Z.pos (digits2_pos p) = 54).
      { apply digits_of_bounds; [|lia].
        change (2 ^ (54 - 1)) with 9007199254740992.
        change (2 ^ 54) with 18014398509481984. lia. }
      rewrite Dp, fexp_normal by lia. cbn [Z.add Z.sub Z.opp Z.pos_sub].
      change (- -1) with (0 + 1).
      apply round_aux_54_Z.
      * change (2 ^ 53) with 9007199254740992.
        change (2 ^ 54) with 18014398509481984. lia.
      * lia.
      * fold h. assert (O : Z.odd (Z.pos p) = false).
        { replace (Z.pos p) with (2 * h) by lia.
          rewrite Z.odd_mul. reflexivity. }
        rewrite O. reflexivity.
      * change (2 ^ 52) with 4503599627370496.
        change (2 ^ 53) with 9007199254740992. lia.
    + rewrite <- Hh. change (2 ^ 52) with 4503599627370496.
      change (2 ^ 53) with 9007199254740992. lia.
  - (* 55 digits *)
    assert (L : Z.log2 (Z.pos p) = 54).
    { apply Z.log2_unique; [lia|].
      change (2 ^ 54) with 18014398509481984.
      change (2 ^ (54 + 1)) with 36028797018963968. lia. }
    rewrite L in I. change (54 + 1 <=? 53) with false in I.
    change (2 ^ (54 + 1 - 53)) with 4 in I. cbn [orb] in I.
    apply andb_true_iff in I. destruct I as [I _]. apply Z.eqb_eq in I.
    pose proof (Z.div_mod (Z.pos p) 4 ltac:(lia)) as D.
    set (h := Z.pos p / 4) in *.
    exists (Z.to_pos h), (-2).
    assert (Hh : h = Z.pos (Z.to_pos h)) by (rewrite Z2Pos.id; lia).
    split; [|split; [lia|split; [|right; right; split; [reflexivity|lia]]]].
    + unfold of_Z, binary_normalize, binary_round, shl_align.
      assert (Dp : Z.pos (digits2_pos p) = 55).
      { apply digits_of_bounds; [|lia].
        change (2 ^ (55 - 1)) with 18014398509481984.
        change (2 ^ 55) with 36028797018963968. lia. }
      rewrite Dp, fexp_normal by lia. cbn [Z.add Z.sub Z.opp Z.pos_sub].
      change (- -2) with (0 + 2).
      apply round_aux_55.
      * change (2 ^ 54) with 18014398509481984.
        change (2 ^ 55) with 36028797018963968. lia.
      * exact I.
      * lia.
    + rewrite <- Hh. change (2 ^ 52) with 4503599627370496.
      change (2 ^ 53) with 9007199254740992. lia.
Qed.

Lemma is_number_small (n : Z) : 0 <= n < 2 ^ 53 -> is_number n = true.
Proof.
  intros [L U]. unfold is_number. apply orb_true_iff. left.
  apply Z.leb_le. rewrite Z.abs_eq by lia.
  destruct (Z.eq_dec n 0) as [->|N]; [cbn; lia|].
  assert (Z.log2 n < 53); [|lia].
  apply Z.log2_lt_pow2; lia.
Qed.

Lemma ceil_close_4 (M n' : Z) :
  0 <= n' -> -5 <= 10 * M - 8 * n' <= 5 ->
  - ((- M) / 4) = (2 * n' + 9) / 10.
Proof.
  intros Hn H.
  set (c := (2 * n' + 9) / 10).
  pose proof (Z.div_mod (2 * n' + 9) 10 ltac:(lia)) as D.
  pose proof (Z.mod_pos_bound (2 * n' + 9) 10 ltac:(lia)) as B.
  fold c in D.
  assert (E : (- M) / 4 = - c).
  { symmetry. apply Z.div_unique with (r := 4 * c - M); lia. }
  rewrite E. lia.
Qed.

(** For a number below [first_miss] the stored page count is the exact
    ceiling. *)
Lemma pages_of_exact (n : Z) :
  0 <= n < first_miss -> is_number n = true -> pages_of n = (n + 9) / 10.
Proof.
  intros [L U] I. unfold first_miss in U.
  destruct n as [|p|p]; [vm_compute; reflexivity| |lia].
  unfold pages_of, divide.
  assert (U55 : Z.pos p < 2 ^ 55)
    by (change (2 ^ 55) with 36028797018963968; lia).
  destruct (of_Z_number p U55 I) as (N & k & E & K & R & V).
  rewrite E, of_Z_ten.
  destruct (div_ten_rounds N k R K) as (M & j & D & HM & C).
  rewrite D, Math_ceil_finite by lia.
  change (2 ^ 52) with 4503599627370496 in R.
  change (2 ^ 53) with 9007199254740992 in R.
  destruct V as [[K0 V]|[[-> V]|[-> V]]].
  - assert (P2 : 0 < 2 ^ k) by (apply Z.pow_pos_nonneg; lia).
    destruct C as [[-> C]|[-> [C _]]].
    + apply ceil_close with (X := 16 * Z.pos N); try lia.
      * replace (- (- (4) - k)) with (4 + k) by lia.
        rewrite Z.pow_add_r by lia. change (2 ^ 4) with 16. lia.
      * replace (- (- (4) - k)) with (4 + k) by lia.
        rewrite Z.pow_add_r by lia. change (2 ^ 4) with 16.
        rewrite V. ring.
    + apply ceil_close with (X := 8 * Z.pos N); try lia.
      * replace (- (- (3) - k)) with (3 + k) by lia.
        rewrite Z.pow_add_r by lia. change (2 ^ 3) with 8. lia.
      * replace (- (- (3) - k)) with (3 + k) by lia.
        rewrite Z.pow_add_r by lia. change (2 ^ 3) with 8.
        rewrite V. ring.
  - destruct C as [[-> C]|[-> [C _]]].
    + change (2 ^ (- (- (4) - -1))) with 8.
      apply ceil_close with (X := 16 * Z.pos N); lia.
    + change (2 ^ (- (- (3) - -1))) with 4.
      rewrite V. apply ceil_close_4; lia.
  - destruct C as [[-> C]|[-> [C B]]].
    + change (2 ^ (- (- (4) - -2))) with 4.
      rewrite V. replace (4 * Z.pos N) with (2 * (2 * Z.pos N)) by lia.
      apply ceil_close_4; lia.
    + change (2 ^ (- (- (3) - -2))) with 2.
      rewrite V. rewrite V in U.
      assert (Z.pos N = 5629499534213120 \/ Z.pos N = 5629499534213121
              \/ Z.pos N = 5629499534213122) as [H|[H|H]] by lia;
        rewrite H in *.
      * assert (M = 4503599627370496) by lia. subst M. reflexivity.
      * assert (M = 4503599627370497) by lia. subst M. reflexivity.
      * assert (M = 4503599627370498) by lia. subst M. reflexivity.
Qed.

(** For a number below [first_miss], [pages_of n] is the ceiling of
    [n / 10]: the least integer that is at least the quotient. *)
Lemma pages_of_least (n : Z) :
  0 <= n < first_miss -> is_number n = true ->
  n <= 10 * pages_of n /\ forall k, n <= 10 * k -> pages_of n <= k.
Proof.
  intros B I. rewrite pages_of_exact by assumption.
  assert (H := Z.div_mod (n + 9) 10 ltac:(lia)).
  assert (H1 := Z.mod_pos_bound (n + 9) 10 ltac:(lia)).
  split; [lia|]. intros k Hk.
  apply Z.lt_succ_r. apply Z.div_lt_upper_bound; lia.
Qed.

(** *** Buttons *)

Lemma lookup_map {A B} (f : A -> B) (l : list A) (i : nat) :
  map f l !! i = option_map f (l !! i).
Proof.
  revert i. induction l as [|x l IH]; intros [|i]; simpl; auto.
Qed.

Lemma page_buttons_labels (s : State) :
  map label (page_buttons s) = map Z.of_nat (seq 1 (Z.to_nat (totalPages s))).
Proof.
  unfold page_buttons. rewrite map_map. simpl.
  rewrite <- seq_shift, map_map.
  apply map_ext. intros i. lia.
Qed.

Lemma buttons_lookup (s : State) (index : nat) (b : Button) :
  buttons (render s) !! index = Some b ->
  1 < totalPages s
  /\ Z.of_nat index < totalPages s
  /\ onClick b = Z.of_nat index + 1.
Proof.
  unfold buttons, render. simpl.
  destruct (1 <? totalPages s) eqn:E; [|discriminate].
  apply Z.ltb_lt in E. unfold page_buttons. rewrite lookup_map.
  destruct (seq 0 (Z.to_nat (totalPages s)) !! index) as [i|] eqn:L;
    [|discriminate].
  apply lookup_seq in L. destruct L as [-> L]. simpl.
  intros [= <-]. simpl. repeat split; lia.
Qed.

(** *** Running the effect *)

Lemma run_currentPage (p : Async) (s : State) :
  currentPage (snd (fst (run p s))) = currentPage s.
Proof.
  revert s. induction p as [|a k IH| |]; intros s; simpl; auto.
  specialize (IH (perform a s)).
  destruct (run k (perform a s)) as [[evs s'] w]. simpl in *.
  rewrite IH. destruct a; reflexivity.
Qed.

Lemma effect_spec (m : Mounted) :
  fst (effect m) = effect_events (categoryId m) (currentPage (state m))
  /\ state (snd (effect m)) = state m
  /\ categoryId (snd (effect m)) = categoryId m
  /\ setIsLoading (snd (effect m)) = setIsLoading m
  /\ deps (snd (effect m)) = deps m
  /\ (map_Forall (fun _ => known) (inflight m) ->
      map_Forall (fun _ => known) (inflight (snd (effect m))))
  /\ (effect_events (categoryId m) (currentPage (state m)) = [] ->
      inflight (snd (effect m)) = inflight m).
Proof.
  destruct m as [s q f d fl n].
  unfold effect, spawn, fetchBlogs, fetchCategory, effect_events. simpl.
  destruct q as [[|c id]|]; simpl; repeat split; auto; try discriminate.
  intros H. apply map_Forall_insert_2; [right; eexists; reflexivity|].
  apply map_Forall_insert_2; [left; eexists _, _; reflexivity|exact H].
Qed.

Lemma commit_spec (m : Mounted) :
  fst (commit m) =
    (if bool_decide (deps m = Some (current_deps m)) then []
     else effect_events (categoryId m) (currentPage (state m)))
  /\ state (snd (commit m)) = state m
  /\ categoryId (snd (commit m)) = categoryId m
  /\ setIsLoading (snd (commit m)) = setIsLoading m
  /\ deps (snd (commit m)) = Some (current_deps m)
  /\ (map_Forall (fun _ => known) (inflight m) ->
      map_Forall (fun _ => known) (inflight (snd (commit m))))
  /\ (fst (commit m) = [] -> inflight (snd (commit m)) = inflight m).
Proof.
  unfold commit. case_bool_decide as E; simpl.
  - repeat split; auto.
  - destruct (effect_spec (with_deps (Some (current_deps m)) m))
      as (H1 & H2 & H3 & H4 & H5 & H6 & H7).
    simpl in *. rewrite H1. repeat split; auto.
Qed.

Lemma commit_invariant (m : Mounted) :
  1 <= currentPage (state m) ->
  map_Forall (fun _ => known) (inflight m) ->
  invariant (snd (commit m)).
Proof.
  intros Hp Hk.
  destruct (commit_spec m) as (_ & H2 & H3 & H4 & H5 & H6 & _).
  unfold invariant, current_deps in *.
  rewrite H2, H3, H4, H5. auto.
Qed.

Lemma commit_idle (m : Mounted) :
  deps m = Some (current_deps m) -> commit m = ([], m).
Proof.
  intros H. unfold commit. rewrite bool_decide_eq_true_2; auto.
Qed.

Lemma settle_blogs (m : Mounted) (n : nat) (data : BlogsData)
      (evs : list Event) (m' : Mounted) :
  invariant m ->
  step (Settle n (BlogsFulfilled data)) m = Some (evs, m') ->
  evs = [Did (SetBlogs (contents data));
         Did (SetTotalPages (pages_of (totalCount data)));
         Did (SetIsLoading false)]
  /\ state m' =
       {| blogs := contents data; category := category (state m);
          currentPage := currentPage (state m);
          totalPages := pages_of (totalCount data) |}
  /\ categoryId m' = categoryId m
  /\ inflight m' = delete n (inflight m)
  /\ invariant m'.
Proof.
  intros (Hd & Hp & Hk). unfold step.
  destruct (inflight m !! n) as [w|] eqn:L; [|discriminate].
  destruct (Hk _ _ L) as [(id & page & ->) | (id & ->)]; [|discriminate].
  unfold spawn. simpl.
  rewrite commit_idle by exact Hd.
  intros [= <- <-]. simpl. repeat split; auto.
  apply map_Forall_delete. exact Hk.
Qed.

Lemma settle_category (m : Mounted) (n : nat) (data : option Category)
      (evs : list Event) (m' : Mounted) :
  invariant m ->
  step (Settle n (CategoryFulfilled data)) m = Some (evs, m') ->
  evs = [Did (SetCategory data)]
  /\ state m' =
       {| blogs := blogs (state m); category := data;
          currentPage := currentPage (state m);
          totalPages := totalPages (state m) |}
  /\ invariant m'.
Proof.
  intros (Hd & Hp & Hk). unfold step.
  destruct (inflight m !! n) as [w|] eqn:L; [|discriminate].
  destruct (Hk _ _ L) as [(id & page & ->) | (id & ->)]; [discriminate|].
  unfold spawn. simpl.
  rewrite commit_idle by exact Hd.
  intros [= <- <-]. simpl. repeat split; auto.
  apply map_Forall_delete. exact Hk.
Qed.

Lemma settle_rejection (m : Mounted) (n : nat)
      (evs : list Event) (m' : Mounted) :
  invariant m ->
  step (Settle n Rejection) m = Some (evs, m') ->
  evs = [] /\ state m' = state m /\ invariant m'.
Proof.
  intros (Hd & Hp & Hk). unfold step.
  destruct (inflight m !! n) as [w|] eqn:L; [|discriminate].
  destruct w; intros [= <- <-]; simpl; repeat split; auto;
    apply map_Forall_delete; exact Hk.
Qed.

Lemma click_page (m : Mounted) (index : nat)
      (evs : list Event) (m' : Mounted) :
  invariant m ->
  step (ClickPage index) m = Some (evs, m') ->
  1 < totalPages (state m)
  /\ Z.of_nat index < totalPages (state m)
  /\ state m' = handlePageChange (Z.of_nat index + 1) (state m)
  /\ evs =
      (if Z.of_nat index + 1 =? currentPage (state m) then []
       else effect_events (categoryId m) (Z.of_nat index + 1))
  /\ invariant m'.
Proof.
  intros (Hd & Hp & Hk). unfold step.
  destruct (buttons (render (state m)) !! index) as [b|] eqn:L;
    [|discriminate].
  apply buttons_lookup in L. destruct L as (H1 & H2 & H3).
  intros [= E]. rewrite H3 in E.
  set (m1 := with_state _ m) in E.
  destruct (commit_spec m1) as (C1 & C2 & C3 & C4 & C5 & C6 & C7).
  rewrite E in *. simpl in *.
  split; [exact H1|]. split; [exact H2|]. split; [exact C2|].
  split.
  - rewrite C1, Hd. unfold current_deps. simpl.
    destruct (Z.eqb_spec (Z.of_nat index + 1) (currentPage (state m))) as [e|e].
    + rewrite e. rewrite bool_decide_eq_true_2; reflexivity.
    + rewrite bool_decide_eq_false_2; [reflexivity|].
      intros [= E']. congruence.
  - pose proof (commit_invariant m1) as I. rewrite E in I. apply I; simpl; auto. lia.
Qed.

Lemma step_invariant (m : Mounted) (i : Input) (evs : list Event) (m' : Mounted) :
  invariant m -> step i m = Some (evs, m') -> invariant m'.
Proof.
  intros I H. destruct i as [index|q|f|n r].
  - eapply click_page; eauto.
  - destruct I as (Hd & Hp & Hk). simpl in H. injection H as H.
    match type of H with commit ?x = _ => pose proof (commit_invariant x) as C end.
    rewrite H in C. apply C; simpl; auto.
  - destruct I as (Hd & Hp & Hk). simpl in H. injection H as H.
    match type of H with commit ?x = _ => pose proof (commit_invariant x) as C end.
    rewrite H in C. apply C; simpl; auto.
  - destruct r.
    + eapply settle_blogs; eauto.
    + eapply settle_category; eauto.
    + eapply settle_rejection; eauto.
Qed.

Lemma reachable_invariant (m : Mounted) : reachable m -> invariant m.
Proof.
  induction 1 as [q f|m i evs m' _ IH H].
  - apply commit_invariant; simpl; [lia|]. apply map_Forall_empty.
  - eapply step_invariant; eauto.
Qed.

Lemma after_reachable (l : list Input) (m : Mounted) :
  reachable m -> steps l m <> None -> reachable (after l m).
Proof.
  unfold after. revert m. induction l as [|i l IH]; intros m R H; simpl in *.
  - exact R.
  - destruct (step i m) as [[evs m1]|] eqn:E; [|contradiction].
    assert (R1 : reachable m1) by (eapply reachable_step; eauto).
    specialize (IH m1 R1).
    destruct (steps l m1) as [[t m2]|]; [|contradiction].
    apply IH. discriminate.
Qed.

(** Runs are evaluated to their events or to whether they happen, not to
    the state they end in, which holds the suspended calls. *)
Lemma steps_defined (l : list Input) (m : Mounted) :
  match steps l m with Some _ => true | None => false end = true ->
  steps l m <> None.
Proof. destruct (steps l m); [discriminate|congruence]. Qed.

Lemma step_after (i : Input) (m : Mounted) (evs : list Event) :
  option_map fst (step i m) = Some evs ->
  step i m = Some (evs, after [i] m).
Proof.
  unfold after. cbn [steps].
  destruct (step i m) as [[e m1]|]; [|discriminate].
  intros [= <-]. reflexivity.
Qed.

Lemma steps_after (l : list Input) (m : Mounted) (t : list (list Event)) :
  option_map fst (steps l m) = Some t ->
  steps l m = Some (t, after l m).
Proof.
  unfold after. destruct (steps l m) as [[e m1]|]; [|discriminate].
  intros [= <-]. reflexivity.
Qed.

Lemma page_one_of_three_reachable : reachable page_one_of_three.
Proof.
  apply after_reachable; [apply reachable_mount|].
  apply steps_defined. vm_compute. reflexivity.
Qed.

Lemma stale_page_reachable : reachable stale_page.
Proof.
  apply after_reachable; [apply page_one_of_three_reachable|].
  apply steps_defined. vm_compute. reflexivity.
Qed.

Lemma huge_category_reachable : reachable huge_category.
Proof.
  apply after_reachable; [apply reachable_mount|].
  apply steps_defined. vm_compute. reflexivity.
Qed.

(** *** Page count and buttons *)

(** C1 (for the numbers below 22517998136852492): when a posts request of
    a mounted view is answered with a total count that is a number from 0
    to below [first_miss], every integer below 2^53 among them, the stored
    page count is the ceiling of the count over 10 (the least integer at
    least the quotient, hence non-negative); and when the render returns
    (the page count is a length [Array.from] takes, below 2^32), the page
    shows a button for each of the pages 1..totalPages, in this order and
    each bound to its page, when there is more than one page, and no
    button otherwise. *)
Theorem total_pages_is_ceiling_and_buttons
    (m : Mounted) (n : nat) (data : BlogsData)
    (evs : list Event) (m' : Mounted) :
  reachable m ->
  0 <= totalCount data < first_miss ->
  is_number (totalCount data) = true ->
  step (Settle n (BlogsFulfilled data)) m = Some (evs, m') ->
  let tp := totalPages (state m') in
  (totalCount data <= blogsPerPage * tp
   /\ forall k, totalCount data <= blogsPerPage * k -> tp <= k)
  /\ 0 <= tp
  /\ (render_returns tp = true ->
      map label (buttons (render (state m'))) =
        (if 1 <? tp then map Z.of_nat (seq 1 (Z.to_nat tp)) else [])
      /\ map onClick (buttons (render (state m'))) =
           map label (buttons (render (state m')))
      /\ Z.of_nat (length (buttons (render (state m')))) =
           (if 1 <? tp then tp else 0)).
Proof.
  intros R Hc Hn H. apply reachable_invariant in R.
  destruct (settle_blogs _ _ _ _ _ R H) as (_ & Hs & _).
  rewrite Hs. cbn [totalPages]. clear Hs H.
  destruct (pages_of_least (totalCount data) Hc Hn) as [L1 L2].
  assert (P : 0 <= pages_of (totalCount data)).
  { rewrite pages_of_exact by assumption. apply Z.div_pos; lia. }
  split; [split; assumption|]. split; [exact P|]. intros _.
  unfold buttons, render. cbn [pagination totalPages].
  destruct (1 <? pages_of (totalCount data)) eqn:E; [|auto].
  split; [apply page_buttons_labels|].
  unfold page_buttons. rewrite !map_map, length_map, length_seq.
  cbn [totalPages onClick label].
  split; [reflexivity|lia].
Qed.

Lemma total_pages_is_ceiling_and_buttons_witness :
  totalPages (state page_one_of_three) = 3
  /\ map label (buttons (render (state page_one_of_three))) = [1; 2; 3].
Proof.
  assert (T : totalPages (state page_one_of_three) = 3)
    by (vm_compute; reflexivity).
  split; [exact T|].
  pose (data := {| contents := []; totalCount := 25 |}).
  assert (E : step (Settle 0 (BlogsFulfilled data))
                   (snd (mount (Some (js "a")) 0))
              = Some ([Did (SetBlogs []); Did (SetTotalPages 3);
                       Did (SetIsLoading false)], page_one_of_three))
    by (apply step_after; vm_compute; reflexivity).
  assert (C : 0 <= totalCount data < first_miss)
    by (unfold first_miss; cbn; lia).
  assert (N : is_number (totalCount data) = true) by reflexivity.
  destruct (total_pages_is_ceiling_and_buttons _ _ _ _ _
              (reachable_mount _ _) C N E)
    as (_ & _ & L).
  destruct L as (L & _); [rewrite T; reflexivity|].
  rewrite L, T. reflexivity.
Defined.

(** The number 22517998136852492 is a total count a fetch can return; its
    tenth, 2251799813685249.2, lies between the numbers 2251799813685249
    and 2251799813685249.5 and the division rounds it down to the first:
    the stored page count is one less than the ceiling, and ten times it
    is less than the count.  (A page count of this size is also no length
    for [Array.from]: the render throws.) *)
Lemma page_count_misses_ceiling_of_large_count :
  reachable huge_category
  /\ is_number first_miss = true
  /\ Math_ceil (of_Z first_miss) = first_miss
  /\ totalPages (state huge_category) = 2251799813685249
  /\ ~ (first_miss
        <= blogsPerPage * totalPages (state huge_category))
  /\ render_returns (totalPages (state huge_category)) = false.
Proof.
  assert (T : totalPages (state huge_category) = 2251799813685249)
    by (vm_compute; reflexivity).
  split; [apply huge_category_reachable|].
  split; [vm_compute; reflexivity|].
  split; [vm_compute; reflexivity|]. split; [exact T|].
  rewrite T. split; [unfold blogsPerPage, first_miss; lia|].
  vm_compute. reflexivity.
Qed.

(** *** Loading signals and the missing identifier *)

(** The events of one call of [fetchBlogs], from start to end. *)
Lemma fetchBlogs_trace (api : Api) (categoryId : option jsstring) (page : Z) :
  trace api (fetchBlogs categoryId page) =
    match categoryId with
    | Some id =>
      if truthy id then
        Did (SetIsLoading true)
        :: GetBlogsByCategory id page blogsPerPage
        :: match getBlogsByCategory api id page blogsPerPage with
           | Fulfilled data =>
             [Did (SetBlogs (contents data));
              Did (SetTotalPages (pages_of (totalCount data)));
              Did (SetIsLoading false)]
           | Rejected => []
           end
      else []
    | None => []
    end.
Proof.
  destruct categoryId as [[|c id]|]; reflexivity.
Qed.

(** The events up to the first [await] open the events of the whole
    call, which goes on as the suspended rest does. *)
Lemma trace_run (api : Api) (p : Async) (s : State) :
  trace api p = fst (fst (run p s)) ++ resume_trace api (snd (run p s)).
Proof.
  revert s. induction p as [|a k IH| |]; intros s; simpl; auto.
  specialize (IH (perform a s)).
  destruct (run k (perform a s)) as [[evs s'] w]. simpl in *.
  rewrite IH. reflexivity.
Qed.

(** C2: in a call of [fetchBlogs], a posts request comes right after the
    loading-start signal, which opens the call; a loading-end signal closes
    the call and comes only when the request was fulfilled, after the
    items and the recomputed page count were stored, in this order; when
    the request is rejected no loading-end signal occurs at all. *)
Theorem loading_signals_bracket_posts_fetch
    (api : Api) (categoryId : option jsstring) (page : Z)
    (t1 : list Event) (e : Event) (t2 : list Event) :
  trace api (fetchBlogs categoryId page) = t1 ++ e :: t2 ->
  (forall id p l,
     e = GetBlogsByCategory id p l -> t1 = [Did (SetIsLoading true)])
  /\ (e = Did (SetIsLoading false) ->
      exists id data,
        categoryId = Some id
        /\ getBlogsByCategory api id page blogsPerPage = Fulfilled data
        /\ t1 = [Did (SetIsLoading true);
                 GetBlogsByCategory id page blogsPerPage;
                 Did (SetBlogs (contents data));
                 Did (SetTotalPages (pages_of (totalCount data)))]
        /\ t2 = [])
  /\ (forall id,
        categoryId = Some id ->
        getBlogsByCategory api id page blogsPerPage = Rejected ->
        ~ In (Did (SetIsLoading false)) (t1 ++ e :: t2)).
Proof.
  intros H. split; [|split].
  - intros id p l ->. rewrite fetchBlogs_trace in H.
    destruct categoryId as [i|]; [|destruct t1; discriminate].
    destruct (truthy i); [|destruct t1; discriminate].
    destruct t1 as [|x1 t1]; [discriminate|]. injection H as <- H.
    destruct t1 as [|x2 t1]; [reflexivity|]. injection H as <- H.
    destruct (getBlogsByCategory api i page blogsPerPage);
      repeat (destruct t1 as [|? t1]; [discriminate|injection H as <- H]);
      destruct t1; discriminate.
  - intros ->. rewrite fetchBlogs_trace in H.
    destruct categoryId as [i|]; [|destruct t1; discriminate].
    destruct (truthy i); [|destruct t1; discriminate].
    destruct t1 as [|x1 t1]; [discriminate|]. injection H as <- H.
    destruct t1 as [|x2 t1]; [discriminate|]. injection H as <- H.
    destruct (getBlogsByCategory api i page blogsPerPage) as [data|] eqn:G;
      [|destruct t1; discriminate].
    exists i, data. split; [reflexivity|]. split; [exact G|].
    destruct t1 as [|x3 t1]; [discriminate|]. injection H as <- H.
    destruct t1 as [|x4 t1]; [discriminate|]. injection H as <- H.
    destruct t1 as [|x5 t1].
    + injection H as <-. auto.
    + injection H as _ H. destruct t1; discriminate.
  - intros id -> G. rewrite <- H, fetchBlogs_trace, G.
    destruct (truthy id); simpl; intuition discriminate.
Qed.

Lemma loading_signals_bracket_posts_fetch_witness :
  let api := {| getBlogsByCategory := fun _ _ _ =>
                  Fulfilled {| contents := []; totalCount := 25 |};
                getCategory := fun _ => Rejected |} in
  exists id data,
    Some (js "c1") = Some id
    /\ getBlogsByCategory api id 1 blogsPerPage = Fulfilled data
    /\ [Did (SetIsLoading true); GetBlogsByCategory (js "c1") 1 10;
        Did (SetBlogs []); Did (SetTotalPages 3)] =
       [Did (SetIsLoading true); GetBlogsByCategory id 1 blogsPerPage;
        Did (SetBlogs (contents data));
        Did (SetTotalPages (pages_of (totalCount data)))]
    /\ @nil Event = [].
Proof.
  intros api.
  apply (loading_signals_bracket_posts_fetch api (Some (js "c1")) 1
           [Did (SetIsLoading true); GetBlogsByCategory (js "c1") 1 10;
            Did (SetBlogs []); Did (SetTotalPages 3)]
           (Did (SetIsLoading false)) []).
  - reflexivity.
  - reflexivity.
Defined.

(** C3: without a category identifier the effect calls nothing: neither
    [fetchBlogs] nor [fetchCategory] issues its request, on the first
    render and on every later one, and nothing is left pending. *)
Theorem no_fetch_without_category_id (m : Mounted) :
  categoryId m = None ->
  fst (effect m) = []
  /\ inflight (snd (effect m)) = inflight m
  /\ fst (commit m) = []
  /\ inflight (snd (commit m)) = inflight m
  /\ (forall api page,
        trace api (fetchBlogs (categoryId m) page) = []
        /\ trace api (fetchCategory (categoryId m)) = [])
  /\ (forall f, mount None f =
        ([], {| state := initial; categoryId := None; setIsLoading := f;
                deps := Some (None, f, 1); inflight := ∅;
                next_request := 0 |})).
Proof.
  intros H.
  destruct (effect_spec m) as (E1 & _ & _ & _ & _ & _ & E7).
  destruct (commit_spec m) as (C1 & _ & _ & _ & _ & _ & C7).
  rewrite H in *. simpl in *.
  assert (C : fst (commit m) = []).
  { rewrite C1. destruct (bool_decide _); reflexivity. }
  repeat split; auto.
Qed.

Lemma no_fetch_without_category_id_witness :
  fst (commit (snd (mount None 0))) = []
  /\ fst (effect (snd (mount None 0))) = [].
Proof.
  destruct (no_fetch_without_category_id (snd (mount None 0)))
    as (E & _ & C & _); [reflexivity|].
  split; [exact C|exact E].
Defined.

(** *** Page changes *)

(** C4 (for a change of page): a page button of a mounted view stands for
    a page p in [1, totalPages]; activating it sets the current page to p
    and, when p is not the page already current, gives the loading-start
    signal and issues exactly one posts request, for page p of the
    present category with page size 10, and one category request (nothing
    when the router has no category identifier); when p is the current
    page nothing at all is called: the state, the dependencies of the
    effect and the pending requests are as before. *)
Theorem page_button_sets_page_and_fetches_on_change
    (m : Mounted) (index : nat) (evs : list Event) (m' : Mounted) :
  reachable m ->
  step (ClickPage index) m = Some (evs, m') ->
  let p := Z.of_nat index + 1 in
  1 <= p <= totalPages (state m)
  /\ currentPage (state m') = p
  /\ evs =
       (if p =? currentPage (state m) then []
        else effect_events (categoryId m) p)
  /\ posts_requests evs =
       (if p =? currentPage (state m) then []
        else match categoryId m with
             | Some id => if truthy id then [(id, p, blogsPerPage)] else []
             | None => []
             end)
  /\ (p = currentPage (state m) ->
      state m' = state m /\ deps m' = deps m /\ inflight m' = inflight m).
Proof.
  intros R H p. apply reachable_invariant in R.
  destruct (click_page _ _ _ _ R H) as (H1 & H2 & H3 & H4 & _).
  fold p in H3, H4.
  split; [lia|]. split; [rewrite H3; reflexivity|]. split; [exact H4|].
  split.
  - rewrite H4. destruct (p =? currentPage (state m)); [reflexivity|].
    unfold effect_events.
    destruct (categoryId m) as [id|]; [|reflexivity].
    destruct (truthy id); reflexivity.
  - intros Hp. unfold step in H.
    destruct (buttons (render (state m)) !! index) as [b|] eqn:L;
      [|discriminate].
    apply buttons_lookup in L. destruct L as (_ & _ & L).
    injection H as H. rewrite L in H. fold p in H.
    match type of H with commit ?x = _ =>
      destruct (commit_spec x) as (_ & _ & C3 & C4 & C5 & _ & C7) end.
    rewrite H in *. cbn [fst snd] in *.
    destruct R as (Hd & _).
    split; [|split].
    + rewrite H3, Hp. destruct (state m); reflexivity.
    + rewrite C5, Hd. unfold current_deps.
      cbn [categoryId setIsLoading state with_state handlePageChange
           currentPage].
      rewrite Hp. reflexivity.
    + rewrite C7; [reflexivity|].
      rewrite H4, Hp, Z.eqb_refl. reflexivity.
Qed.

Lemma page_button_sets_page_and_fetches_on_change_witness :
  currentPage (state (after [ClickPage 2] page_one_of_three)) = 3
  /\ option_map (fun r => posts_requests (fst r))
       (step (ClickPage 2) page_one_of_three) = Some [(js "a", 3, 10)].
Proof.
  assert (E : step (ClickPage 2) page_one_of_three
              = Some ([Did (SetIsLoading true);
                       GetBlogsByCategory (js "a") 3 10;
                       GetCategory (js "a")],
                      after [ClickPage 2] page_one_of_three))
    by (apply step_after; vm_compute; reflexivity).
  destruct (page_button_sets_page_and_fetches_on_change _ _ _ _
              page_one_of_three_reachable E) as (_ & P & _).
  split; [exact P|]. rewrite E. reflexivity.
Defined.

(** Page 1 of 3 is shown and current; activating the button of page 1
    leaves the page at 1 and issues no request at all, so not exactly
    one posts request. *)
Lemma click_on_current_page_issues_no_fetch :
  reachable page_one_of_three
  /\ currentPage (state page_one_of_three) = 1
  /\ totalPages (state page_one_of_three) = 3
  /\ option_map fst (step (ClickPage 0) page_one_of_three) = Some []
  /\ ~ (exists evs m',
          step (ClickPage 0) page_one_of_three = Some (evs, m')
          /\ currentPage (state m') = 1
          /\ length (posts_requests evs) = 1%nat).
Proof.
  split; [apply page_one_of_three_reachable|].
  split; [reflexivity|]. split; [reflexivity|].
  assert (E : option_map fst (step (ClickPage 0) page_one_of_three)
              = Some []) by (vm_compute; reflexivity).
  split; [exact E|].
  intros (evs & m' & H & _ & L). rewrite H in E. simpl in E.
  injection E as ->. discriminate.
Qed.

(** C5 (but for a posts answer that lowers the page count): in every
    state of a mounted view the current page is at least 1, and it is in
    [1, totalPages] whenever it is 1, so at the mount, after the first
    answer and until the first page change.  A page change puts it in
    [1, totalPages], and every turn keeps it there (a page change, a
    change of category, a render of
    the parent, a category answer, a rejection, a posts answer) except a
    posts answer whose page count is positive and below the current page:
    nothing resets or clamps the current page then, and it is left above
    totalPages. *)
Theorem current_page_positive_and_in_range_after_click (m : Mounted) :
  reachable m ->
  1 <= currentPage (state m)
  /\ (currentPage (state m) = 1 -> in_range (state m))
  /\ (forall q f, in_range (state (snd (mount q f))))
  /\ (forall q f n r evs m1,
        step (Settle n r) (snd (mount q f)) = Some (evs, m1) ->
        in_range (state m1))
  /\ forall i evs m',
       step i m = Some (evs, m') ->
       (forall index, i = ClickPage index ->
          1 <= currentPage (state m') <= totalPages (state m'))
       /\ (in_range (state m) ->
           (forall n data,
              i = Settle n (BlogsFulfilled data) ->
              pages_of (totalCount data) <= 0
              \/ currentPage (state m) <= pages_of (totalCount data)) ->
           in_range (state m'))
       /\ (forall n data,
             i = Settle n (BlogsFulfilled data) ->
             0 < pages_of (totalCount data) < currentPage (state m) ->
             totalPages (state m') = pages_of (totalCount data)
             /\ currentPage (state m') = currentPage (state m)
             /\ ~ in_range (state m')).
Proof.
  intros R. apply reachable_invariant in R.
  pose proof R as (_ & Hp & _).
  split; [exact Hp|]. split; [unfold in_range; lia|].
  split.
  { intros q f. unfold mount.
    match goal with |- context [commit ?x] =>
      destruct (commit_spec x) as (_ & C & _) end.
    rewrite C. unfold in_range. cbn. lia. }
  split.
  { intros q f n r evs m1 H.
    pose proof (reachable_invariant _ (reachable_mount q f)) as I.
    assert (P1 : currentPage (state (snd (mount q f))) = 1).
    { unfold mount.
      match goal with |- context [commit ?x] =>
        destruct (commit_spec x) as (_ & C & _) end.
      rewrite C. reflexivity. }
    assert (T0 : totalPages (state (snd (mount q f))) = 0).
    { unfold mount.
      match goal with |- context [commit ?x] =>
        destruct (commit_spec x) as (_ & C & _) end.
      rewrite C. reflexivity. }
    destruct r as [data|data|].
    - destruct (settle_blogs _ _ _ _ _ I H) as (_ & Hs & _).
      rewrite Hs. unfold in_range. cbn [totalPages currentPage]. lia.
    - destruct (settle_category _ _ _ _ _ I H) as (_ & Hs & _).
      rewrite Hs. unfold in_range. cbn [totalPages currentPage]. lia.
    - destruct (settle_rejection _ _ _ _ I H) as (_ & Hs & _).
      rewrite Hs. unfold in_range. lia. }
  intros i evs m' H. split; [|split].
  - intros index ->.
    destruct (click_page _ _ _ _ R H) as (H1 & H2 & H3 & _).
    rewrite H3. cbn. lia.
  - intros I A. destruct i as [index|q|f|n r].
    + destruct (click_page _ _ _ _ R H) as (H1 & H2 & H3 & _).
      rewrite H3. unfold in_range. cbn. lia.
    + injection H as H.
      match type of H with commit ?x = _ =>
        destruct (commit_spec x) as (_ & C & _) end.
      rewrite H in C. cbn in C. rewrite C. exact I.
    + injection H as H.
      match type of H with commit ?x = _ =>
        destruct (commit_spec x) as (_ & C & _) end.
      rewrite H in C. cbn in C. rewrite C. exact I.
    + destruct r as [data|data|].
      * destruct (settle_blogs _ _ _ _ _ R H) as (_ & Hs & _).
        rewrite Hs. unfold in_range. cbn [totalPages currentPage].
        destruct (A n data eq_refl); lia.
      * destruct (settle_category _ _ _ _ _ R H) as (_ & Hs & _).
        rewrite Hs. exact I.
      * destruct (settle_rejection _ _ _ _ R H) as (_ & Hs & _).
        rewrite Hs. exact I.
  - intros n data -> L.
    destruct (settle_blogs _ _ _ _ _ R H) as (_ & Hs & _).
    rewrite Hs. unfold in_range. cbn [totalPages currentPage].
    split; [reflexivity|]. split; [reflexivity|]. lia.
Qed.

Lemma current_page_positive_and_in_range_after_click_witness :
  1 <= currentPage (state page_one_of_three)
  /\ 1 <= currentPage (state (after [ClickPage 2] page_one_of_three))
       <= totalPages (state (after [ClickPage 2] page_one_of_three)).
Proof.
  destruct (current_page_positive_and_in_range_after_click
              page_one_of_three page_one_of_three_reachable)
    as (P & _ & _ & _ & C).
  split; [exact P|].
  destruct (C (ClickPage 2)
              [Did (SetIsLoading true);
               GetBlogsByCategory (js "a") 3 10;
               GetCategory (js "a")]
              (after [ClickPage 2] page_one_of_three)) as (K & _);
    [apply step_after; vm_compute; reflexivity|].
  apply (K 2%nat). reflexivity.
Defined.

(** On page 3 of the three pages of category [a], the visitor opens
    category [b], whose 5 posts make one page: the view then holds
    totalPages = 1 and currentPage = 3. *)
Lemma current_page_can_exceed_total_pages :
  reachable stale_page
  /\ totalPages (state stale_page) = 1
  /\ currentPage (state stale_page) = 3
  /\ ~ (0 < totalPages (state stale_page) ->
        1 <= currentPage (state stale_page) <= totalPages (state stale_page)).
Proof.
  split; [apply stale_page_reachable|].
  assert (T : totalPages (state stale_page) = 1) by reflexivity.
  assert (P : currentPage (state stale_page) = 3) by reflexivity.
  split; [exact T|]. split; [exact P|].
  rewrite T, P. lia.
Qed.

(** *** The rendered page *)

(** C8: the children of the [title] element, joined as the browser's head
    manager joins them, are the name of the loaded category followed by
    [ のカテゴリ | iU 学友会], or [カテゴリ | iU 学友会] without a loaded category;
    the meta description is the explanation of the loaded category, or
    the empty string; the meta keywords are [学友会, ] followed by the name
    of the loaded category, or by nothing.  The title is written as three
    children, though, where the keywords are one template string: in the
    page the server sends, the text of the [title] element carries a
    comment marker between the children and is not the title above, on
    the first render (no category loaded) as on any other. *)
Theorem document_metadata (s : State) :
  document_title (render s) =
    match category s with
    | Some c => name c ++ js " のカテゴリ | iU 学友会"
    | None => js "カテゴリ | iU 学友会"
    end
  /\ meta_description (render s) =
       match category s with
       | Some c => explanation c
       | None => Some (js "")
       end
  /\ meta_keywords (render s) =
       match category s with
       | Some c => js "学友会, " ++ name c
       | None => js "学友会, "
       end
  /\ server_title (render s) =
       match category s with
       | Some c => name c ++ js " のカテゴリ<!-- --> <!-- -->| iU 学友会"
       | None => js "カテゴリ<!-- --> <!-- -->| iU 学友会"
       end
  /\ server_title (render initial) = js "カテゴリ<!-- --> <!-- -->| iU 学友会"
  /\ server_title (render initial) <> js "カテゴリ | iU 学友会".
Proof.
  unfold document_title, server_title, render, join.
  cbn [title meta_description meta_keywords flat_map category initial].
  destruct (category s) as [c|].
  - rewrite <- !app_assoc. repeat split. vm_compute. discriminate.
  - repeat split. vm_compute. discriminate.
Qed.

(** C9: with no stored post the view shows the [NoResults] placeholder,
    whose query is the name of the loaded category, or [このカテゴリ] without
    a loaded category; with stored posts it shows the list instead, one
    item per post, in the order of the posts and keyed by their ids. *)
Theorem empty_result_shows_placeholder_else_list (s : State) :
  listing (render s) =
    match blogs s with
    | [] =>
      NoResults
        match category s with
        | Some c => name c
        | None => js "このカテゴリ"
        end
    | _ :: _ =>
      BlogList (map (fun b => {| item_key := blog_id b; blog := b |})
                    (blogs s))
    end
  /\ match listing (render s) with
     | NoResults _ => blogs s = []
     | BlogList items =>
       blogs s <> []
       /\ map blog items = blogs s
       /\ map item_key items = map blog_id (blogs s)
       /\ length items = length (blogs s)
     end.
Proof.
  unfold render. simpl.
  destruct (blogs s) as [|b l]; simpl.
  - auto.
  - rewrite !map_map, length_map. simpl. rewrite map_id.
    repeat split. discriminate.
Qed.

End CategoryListView.

(** ** The event loop of the category list view *)

Section EventLoop.
Import CategoryList.

Lemma commit_cases (m : Mounted) :
  (fst (commit m) = []
   /\ inflight (snd (commit m)) = inflight m
   /\ next_request (snd (commit m)) = next_request m)
  \/ (deps m <> Some (current_deps m)
      /\ exists id, categoryId m = Some id
           /\ fetching id (currentPage (state m)) m
                       (snd (commit m)) (fst (commit m))).
Proof.
  unfold commit. case_bool_decide as E; [left; auto|].
  destruct m as [s q f d fl n].
  unfold effect, spawn, fetchBlogs, fetchCategory, fetching.
  cbn [categoryId state inflight next_request with_deps deps].
  destruct q as [[|c id]|]; cbn; auto.
  right. split; [exact E|]. exists (c :: id). auto.
Qed.

(** A turn either asks nothing of the content API, or runs the effect. *)
Lemma step_cases (m : Mounted) (i : Input) (evs : list Event) (m' : Mounted) :
  invariant m ->
  step i m = Some (evs, m') ->
  (List.filter is_request evs = []
   /\ next_request m' = next_request m
   /\ loading_signals true evs = 0%nat
   /\ ((inflight m' = inflight m
        /\ loading_signals false evs = 0%nat
        /\ forall n r, i <> Settle n r)
       \/ exists n r w,
            i = Settle n r
            /\ inflight m !! n = Some w
            /\ inflight m' = delete n (inflight m)
            /\ loading_signals false evs =
                 if is_posts w && negb (is_rejection i) then 1%nat
                 else 0%nat))
  \/ ((forall n r, i <> Settle n r)
      /\ exists id, categoryId m' = Some id
           /\ fetching id (currentPage (state m')) m m' evs).
Proof.
  intros I H.
  assert (Q : forall m1 : Mounted,
            inflight m1 = inflight m -> next_request m1 = next_request m ->
            (forall n r, i <> Settle n r) ->
            commit m1 = (evs, m') ->
            (List.filter is_request evs = []
             /\ next_request m' = next_request m
             /\ loading_signals true evs = 0%nat
             /\ ((inflight m' = inflight m
                  /\ loading_signals false evs = 0%nat
                  /\ forall n r, i <> Settle n r)
                 \/ exists n r w,
                      i = Settle n r
                      /\ inflight m !! n = Some w
                      /\ inflight m' = delete n (inflight m)
                      /\ loading_signals false evs =
                           if is_posts w && negb (is_rejection i) then 1%nat
                           else 0%nat))
            \/ ((forall n r, i <> Settle n r)
                /\ exists id, categoryId m' = Some id
                     /\ fetching id (currentPage (state m')) m m' evs)).
  { intros m1 F N S C.
    destruct (commit_spec m1) as (_ & C2 & C3 & _).
    destruct (commit_cases m1) as [(E1 & E2 & E3)|(_ & id & Hq & Hf)];
      rewrite C in *; cbn [fst snd] in *.
    - left. subst evs. rewrite E2, E3, F, N. repeat split; auto.
    - right. split; [exact S|]. exists id.
      rewrite C2, C3. split; [exact Hq|].
      unfold fetching in *. rewrite <- F, <- N. exact Hf. }
  destruct i as [index|q|f|n r].
  - unfold step in H.
    destruct (buttons (render (state m)) !! index); [|discriminate].
    injection H as H.
    refine (Q _ _ _ _ H); [reflexivity|reflexivity|intros; discriminate].
  - injection H as H. refine (Q _ _ _ _ H); [reflexivity|reflexivity|intros; discriminate].
  - injection H as H. refine (Q _ _ _ _ H); [reflexivity|reflexivity|intros; discriminate].
  - left. destruct I as (Hd & Hp & Hk). unfold step in H.
    destruct (inflight m !! n) as [w|] eqn:L; [|discriminate].
    destruct (Hk _ _ L) as [(id & page & ->) | (id & ->)]; destruct r;
      try discriminate; unfold spawn in H; cbn in H;
      try (rewrite commit_idle in H by exact Hd);
      injection H as <- <-; cbn;
      (split; [reflexivity|]); (split; [reflexivity|]);
      (split; [reflexivity|]); right; eexists _, _, _;
      (split; [reflexivity|]); (split; [exact L|]); split; reflexivity.
Qed.

Lemma step_fresh (m : Mounted) (i : Input) (evs : list Event) (m' : Mounted) :
  invariant m -> fresh m -> step i m = Some (evs, m') -> fresh m'.
Proof.
  intros I F H. unfold fresh in *.
  destruct (step_cases _ _ _ _ I H)
    as [(_ & N & _ & [(E & _)|(n & r & w & _ & _ & E & _)])
       |(_ & id & _ & _ & _ & E & N)];
    rewrite E, N; intros k Hk.
  - apply F, Hk.
  - rewrite lookup_delete_None. right. apply F, Hk.
  - rewrite !lookup_insert_ne by lia. apply F. lia.
Qed.

Lemma reachable_fresh (m : Mounted) : reachable m -> fresh m.
Proof.
  induction 1 as [q f|m i evs m' R IH H].
  - unfold mount.
    match goal with |- fresh (snd (commit ?m0)) =>
      destruct (commit_cases m0) as [(_ & E & N)|(_ & id & _ & _ & _ & E & N)]
    end; unfold fresh; rewrite E, N; cbn; intros k Hk.
    + apply lookup_empty.
    + rewrite !lookup_insert_ne by lia. apply lookup_empty.
  - eapply step_fresh; eauto. apply reachable_invariant, R.
Qed.


(** *** Answers *)

(** X1: the answer to a pending posts request is applied as it comes,
    whichever category and page the view is on by then: its items and
    the page count of its total replace the stored ones, the loading-end
    signal follows, and the current page, the category metadata and the
    router's identifier are as before. *)
Theorem posts_answer_is_applied
    (m : Mounted) (n : nat) (id : jsstring) (page limit : Z)
    (k : BlogsData -> Async) (data : BlogsData) :
  reachable m ->
  inflight m !! n = Some (AwaitingBlogs id page limit k) ->
  exists m',
    step (Settle n (BlogsFulfilled data)) m =
      Some ([Did (SetBlogs (contents data));
             Did (SetTotalPages (pages_of (totalCount data)));
             Did (SetIsLoading false)], m')
    /\ state m' =
         {| blogs := contents data; category := category (state m);
            currentPage := currentPage (state m);
            totalPages := pages_of (totalCount data) |}
    /\ categoryId m' = categoryId m
    /\ inflight m' = delete n (inflight m).
Proof.
  intros R L. apply reachable_invariant in R.
  destruct R as (Hd & Hp & Hk).
  destruct (Hk _ _ L) as [(id' & page' & E) | (id' & E)]; [|discriminate].
  injection E as -> -> -> ->.
  unfold step. rewrite L. unfold spawn. cbn.
  rewrite commit_idle by exact Hd.
  eexists. split; [reflexivity|]. cbn. auto.
Qed.

Lemma posts_answer_is_applied_witness :
  let late := {| contents := [{| blog_id := js "a21";
                                 blog_title := js "Old" |}];
                 totalCount := 25 |} in
  categoryId stale_page = Some (js "b")
  /\ exists m',
       step (Settle 2 (BlogsFulfilled late)) stale_page =
         Some ([Did (SetBlogs (contents late));
                Did (SetTotalPages (pages_of (totalCount late)));
                Did (SetIsLoading false)], m')
       /\ blogs (state m') = contents late
       /\ totalPages (state m') = 3
       /\ categoryId m' = Some (js "b").
Proof.
  intros late. split; [reflexivity|].
  destruct (posts_answer_is_applied stale_page 2 (js "a") 3 blogsPerPage
              fetchBlogs_resume late stale_page_reachable)
    as (m' & S & E & C & _); [reflexivity|].
  exists m'. split; [exact S|]. rewrite E, C. cbn. auto.
Defined.

(** X2: the answer to a pending category request stores the metadata it
    brings, [null] included, and touches neither the posts, the page
    numbers nor the loading indicator. *)
Theorem category_answer_is_applied
    (m : Mounted) (n : nat) (id : jsstring)
    (k : option Category -> Async) (data : option Category) :
  reachable m ->
  inflight m !! n = Some (AwaitingCategory id k) ->
  exists m',
    step (Settle n (CategoryFulfilled data)) m =
      Some ([Did (SetCategory data)], m')
    /\ state m' =
         {| blogs := blogs (state m); category := data;
            currentPage := currentPage (state m);
            totalPages := totalPages (state m) |}
    /\ inflight m' = delete n (inflight m).
Proof.
  intros R L. apply reachable_invariant in R.
  destruct R as (Hd & Hp & Hk).
  destruct (Hk _ _ L) as [(id' & page' & E) | (id' & E)]; [discriminate|].
  injection E as -> ->.
  unfold step. rewrite L. unfold spawn. cbn.
  rewrite commit_idle by exact Hd.
  eexists. split; [reflexivity|]. cbn. auto.
Qed.

Lemma category_answer_is_applied_witness :
  exists m',
    step (Settle 1 (CategoryFulfilled None)) page_one_of_three =
      Some ([Did (SetCategory None)], m')
    /\ document_title (render (state m')) = js "カテゴリ | iU 学友会".
Proof.
  destruct (category_answer_is_applied page_one_of_three 1 (js "a")
              fetchCategory_resume None page_one_of_three_reachable)
    as (m' & S & E & _); [reflexivity|].
  exists m'. split; [exact S|]. rewrite E. reflexivity.
Defined.

(** *** Requests *)

(** X3: no request is ever cancelled: a pending call stays pending, with its
    continuation, through every turn but the arrival of its own answer,
    and that arrival removes it. *)
Theorem pending_requests_are_never_cancelled
    (m : Mounted) (i : Input) (evs : list Event) (m' : Mounted)
    (n : nat) (w : Suspension) :
  reachable m ->
  inflight m !! n = Some w ->
  step i m = Some (evs, m') ->
  match i with
  | Settle n' _ =>
    if bool_decide (n' = n) then inflight m' !! n = None
    else inflight m' !! n = Some w
  | _ => inflight m' !! n = Some w
  end.
Proof.
  intros R L H.
  pose proof (reachable_fresh _ R) as F.
  apply reachable_invariant in R.
  assert (N : (n < next_request m)%nat).
  { destruct (Nat.lt_ge_cases n (next_request m)) as [?|G]; [assumption|].
    rewrite (F _ G) in L. discriminate. }
  destruct (step_cases _ _ _ _ R H)
    as [(_ & _ & _ & [(E & _ & S)|(n' & r & w' & -> & _ & E & _)])
       |(S & id & _ & _ & _ & E & _)].
  - rewrite E. destruct i; try exact L. exfalso. eapply S. reflexivity.
  - rewrite E. case_bool_decide as D.
    + subst n'. apply lookup_delete_eq.
    + rewrite lookup_delete_ne by exact D. exact L.
  - rewrite E, !lookup_insert_ne by lia.
    destruct i; try exact L. exfalso. eapply S. reflexivity.
Qed.

Lemma pending_requests_are_never_cancelled_witness :
  inflight (after [RouterQuery (Some (js "b"))]
                  (after [ClickPage 2] page_one_of_three)) !! 1%nat
  = Some (AwaitingCategory (js "a") fetchCategory_resume).
Proof.
  pose (m1 := after [ClickPage 2] page_one_of_three).
  assert (R : reachable m1).
  { apply after_reachable; [apply page_one_of_three_reachable|].
    apply steps_defined. vm_compute. reflexivity. }
  apply (pending_requests_are_never_cancelled m1
           (RouterQuery (Some (js "b")))
           [Did (SetIsLoading true); GetBlogsByCategory (js "b") 3 10;
            GetCategory (js "b")]
           _ 1 _ R).
  - vm_compute. reflexivity.
  - apply step_after. vm_compute. reflexivity.
Defined.

(** X4: in a turn the view either calls the content API not at all, or gives
    the loading-start signal and asks for one page of posts and for the
    metadata, in this order, both for the category the router is on
    after the turn, the posts for the page current after the turn with
    page size 10. *)
Theorem turn_requests_current_category_and_page
    (m : Mounted) (i : Input) (evs : list Event) (m' : Mounted) :
  reachable m ->
  step i m = Some (evs, m') ->
  List.filter is_request evs = []
  \/ exists id,
       categoryId m' = Some id
       /\ truthy id = true
       /\ evs = [Did (SetIsLoading true);
                 GetBlogsByCategory id (currentPage (state m')) blogsPerPage;
                 GetCategory id].
Proof.
  intros R H. apply reachable_invariant in R.
  destruct (step_cases _ _ _ _ R H)
    as [(E & _)|(_ & id & C & T & E & _)]; [left; exact E|].
  right. exists id. auto.
Qed.

Lemma turn_requests_current_category_and_page_witness :
  exists id,
    categoryId (after [ClickPage 2] page_one_of_three) = Some id
    /\ truthy id = true
    /\ [Did (SetIsLoading true); GetBlogsByCategory (js "a") 3 10;
        GetCategory (js "a")]
       = [Did (SetIsLoading true);
          GetBlogsByCategory id
            (currentPage (state (after [ClickPage 2] page_one_of_three)))
            blogsPerPage;
          GetCategory id].
Proof.
  destruct (turn_requests_current_category_and_page page_one_of_three
              (ClickPage 2)
              [Did (SetIsLoading true); GetBlogsByCategory (js "a") 3 10;
               GetCategory (js "a")]
              (after [ClickPage 2] page_one_of_three)
              page_one_of_three_reachable) as [E|E];
    [apply step_after; vm_compute; reflexivity|discriminate E|exact E].
Defined.


(** *** Dependencies of the effect *)

Lemma deps_changed (m m1 : Mounted) :
  invariant m ->
  deps m1 = deps m ->
  bool_decide (deps m1 = Some (current_deps m1))
  = bool_decide (current_deps m = current_deps m1).
Proof.
  intros (Hd & _) E. rewrite E, Hd.
  apply bool_decide_ext. split; congruence.
Qed.

(** X5: when the router moves to another category the view asks for the posts
    of that category at the page it was on, not at page 1, and keeps
    showing the posts, the metadata and the page count it holds; a
    router update with the same identifier asks for nothing. *)
Theorem category_change_refetches_at_current_page
    (m : Mounted) (q : option jsstring) :
  reachable m ->
  exists m',
    step (RouterQuery q) m =
      Some (if bool_decide (q = categoryId m) then []
            else effect_events q (currentPage (state m)), m')
    /\ state m' = state m
    /\ categoryId m' = q.
Proof.
  intros R. apply reachable_invariant in R. unfold step.
  match goal with |- context [commit ?x] => set (m1 := x) end.
  destruct (commit_spec m1) as (C1 & C2 & C3 & _).
  exists (snd (commit m1)). split; [|split; assumption].
  rewrite (surjective_pairing (commit m1)) at 1. rewrite C1.
  rewrite (deps_changed m m1 R eq_refl).
  unfold current_deps. cbn.
  destruct (decide (q = categoryId m)) as [->|D].
  - rewrite !bool_decide_eq_true_2 by reflexivity. reflexivity.
  - rewrite !bool_decide_eq_false_2 by congruence. reflexivity.
Qed.

Lemma category_change_refetches_at_current_page_witness :
  let m := after [ClickPage 2] page_one_of_three in
  currentPage (state m) = 3
  /\ exists m',
       step (RouterQuery (Some (js "b"))) m =
         Some ([Did (SetIsLoading true); GetBlogsByCategory (js "b") 3 10;
                GetCategory (js "b")], m')
       /\ state m' = state m
       /\ categoryId m' = Some (js "b").
Proof.
  intros m. split; [reflexivity|].
  apply (category_change_refetches_at_current_page m (Some (js "b"))).
  apply after_reachable; [apply page_one_of_three_reachable|].
  apply steps_defined. vm_compute. reflexivity.
Defined.

(** X6: the [setIsLoading] prop is a dependency of the effect: a parent that
    hands down another function makes the view fetch the same category
    and page again, and one that hands down the same function does not. *)
Theorem new_callback_refetches (m : Mounted) (f : nat) :
  reachable m ->
  exists m',
    step (ParentRender f) m =
      Some (if bool_decide (f = setIsLoading m) then []
            else effect_events (categoryId m) (currentPage (state m)), m')
    /\ state m' = state m
    /\ categoryId m' = categoryId m.
Proof.
  intros R. apply reachable_invariant in R. unfold step.
  match goal with |- context [commit ?x] => set (m1 := x) end.
  destruct (commit_spec m1) as (C1 & C2 & C3 & _).
  exists (snd (commit m1)). split; [|split; assumption].
  rewrite (surjective_pairing (commit m1)) at 1. rewrite C1.
  rewrite (deps_changed m m1 R eq_refl).
  unfold current_deps. cbn.
  destruct (decide (f = setIsLoading m)) as [->|D].
  - rewrite !bool_decide_eq_true_2 by reflexivity. reflexivity.
  - rewrite !bool_decide_eq_false_2 by congruence. reflexivity.
Qed.

Lemma new_callback_refetches_witness :
  exists m',
    step (ParentRender 1) page_one_of_three =
      Some ([Did (SetIsLoading true); GetBlogsByCategory (js "a") 1 10;
             GetCategory (js "a")], m')
    /\ state m' = state page_one_of_three
    /\ categoryId m' = categoryId page_one_of_three.
Proof.
  apply (new_callback_refetches page_one_of_three 1).
  apply page_one_of_three_reachable.
Defined.

(** X7: until an answer arrives the view keeps what it shows: a click on a
    page button, a change of category and a render of the parent leave
    the stored posts, the category metadata and the page count as they
    are; nothing is cleared while the new page is on its way. *)
Theorem list_kept_until_answer
    (m : Mounted) (i : Input) (evs : list Event) (m' : Mounted) :
  step i m = Some (evs, m') ->
  (forall n r, i <> Settle n r) ->
  blogs (state m') = blogs (state m)
  /\ category (state m') = category (state m)
  /\ totalPages (state m') = totalPages (state m)
  /\ listing (render (state m')) = listing (render (state m)).
Proof.
  intros H S.
  assert (E : blogs (state m') = blogs (state m)
              /\ category (state m') = category (state m)
              /\ totalPages (state m') = totalPages (state m)).
  { destruct i as [index|q|f|n r].
    - unfold step in H.
      destruct (buttons (render (state m)) !! index); [|discriminate].
      injection H as H.
      match type of H with commit ?x = _ =>
        destruct (commit_spec x) as (_ & C & _) end.
      rewrite H in C. cbn in C. rewrite C. auto.
    - injection H as H.
      match type of H with commit ?x = _ =>
        destruct (commit_spec x) as (_ & C & _) end.
      rewrite H in C. cbn in C. rewrite C. auto.
    - injection H as H.
      match type of H with commit ?x = _ =>
        destruct (commit_spec x) as (_ & C & _) end.
      rewrite H in C. cbn in C. rewrite C. auto.
    - exfalso. eapply S. reflexivity. }
  destruct E as (E1 & E2 & E3). repeat split; auto.
  unfold render. cbn [listing]. rewrite E1, E2. reflexivity.
Qed.


(** *** The loading indicator *)

Lemma loading_signals_app (b : bool) (l1 l2 : list Event) :
  loading_signals b (l1 ++ l2)
  = (loading_signals b l1 + loading_signals b l2)%nat.
Proof.
  unfold loading_signals. rewrite List.filter_app, length_app. reflexivity.
Qed.

Lemma pending_posts_delete (fl : gmap nat Suspension) (n : nat)
      (w : Suspension) :
  fl !! n = Some w ->
  (size (filter (fun kw : nat * Suspension => is_posts (snd kw) = true)
                (delete n fl))
   + (if is_posts w then 1 else 0)
   = size (filter (fun kw : nat * Suspension => is_posts (snd kw) = true)
                  fl))%nat.
Proof.
  intros L. rewrite map_filter_delete, map_size_delete.
  destruct (is_posts w) eqn:P.
  - rewrite (map_lookup_filter_Some_2 _ _ _ w L P).
    destruct (size (filter _ fl)) eqn:Z; [|simpl; lia].
    apply map_size_empty_inv in Z.
    pose proof (map_lookup_filter_Some_2
                  (fun kw : nat * Suspension => is_posts (snd kw) = true)
                  _ _ w L P) as Q.
    rewrite Z, lookup_empty in Q. discriminate.
  - rewrite (map_lookup_filter_None_2 _ fl n); [simpl; lia|].
    right. intros x Hx. rewrite L in Hx. injection Hx as <-.
    simpl. congruence.
Qed.

Lemma pending_posts_fetching (id : jsstring) (page : Z) (m m' : Mounted)
      (evs : list Event) :
  fresh m -> fetching id page m m' evs ->
  pending_posts m' = S (pending_posts m).
Proof.
  intros F (_ & _ & E & _). unfold pending_posts. rewrite E.
  rewrite map_filter_insert_not'.
  - rewrite map_filter_insert_True by reflexivity.
    apply map_size_insert_None.
    apply map_lookup_filter_None_2. left. apply F. lia.
  - simpl. discriminate.
  - intros y. rewrite lookup_insert_ne by lia.
    rewrite F by lia. discriminate.
Qed.

Lemma step_balance (m : Mounted) (i : Input) (evs : list Event)
      (m' : Mounted) :
  invariant m -> fresh m -> step i m = Some (evs, m') ->
  (loading_signals true evs + pending_posts m
   = loading_signals false evs + pending_posts m' + dropped_posts [i] m)%nat.
Proof.
  intros I F H. cbn [dropped_posts]. rewrite H.
  destruct (step_cases _ _ _ _ I H)
    as [(_ & _ & T & [(E & L & S)|(n & r & w & -> & Lw & E & L)])
       |(S & id & _ & Hf)].
  - unfold pending_posts. rewrite T, L, E.
    destruct i as [| | |n r]; try lia. exfalso. eapply S. reflexivity.
  - rewrite T, L, Lw. unfold pending_posts. rewrite E.
    pose proof (pending_posts_delete _ _ _ Lw) as D.
    destruct r, (is_posts w); simpl in *; lia.
  - rewrite (pending_posts_fetching _ _ _ _ _ F Hf).
    destruct Hf as (_ & -> & _).
    destruct i as [| | |n r]; [| | |exfalso; eapply S; reflexivity];
      cbn; lia.
Qed.

Lemma steps_balance (l : list Input) (m : Mounted)
      (t : list (list Event)) (m' : Mounted) :
  reachable m -> steps l m = Some (t, m') ->
  (loading_signals true (concat t) + pending_posts m
   = loading_signals false (concat t) + pending_posts m'
     + dropped_posts l m)%nat.
Proof.
  revert m t. induction l as [|i l IH]; intros m t R.
  - intros [= <- <-]. cbn. lia.
  - cbn [steps]. destruct (step i m) as [[evs m1]|] eqn:S; [|discriminate].
    destruct (steps l m1) as [[t1 m2]|] eqn:S1; [|discriminate].
    intros [= <- <-].
    assert (R1 : reachable m1) by (eapply reachable_step; eauto).
    specialize (IH _ _ R1 S1).
    pose proof (step_balance _ _ _ _ (reachable_invariant _ R)
                  (reachable_fresh _ R) S) as B.
    cbn [concat]. rewrite !loading_signals_app.
    cbn [dropped_posts] in *. rewrite S in *. lia.
Qed.

(** X8: every loading-start signal given since the mount is accounted for by
    exactly one of: a loading-end signal, a posts request still pending,
    or a posts request that was rejected.  So the loading-end signals
    never outnumber the loading-start signals, and the signals are
    balanced exactly when no posts request is pending or was rejected. *)
Theorem loading_signals_balance
    (q : option jsstring) (f : nat) (l : list Input)
    (t : list (list Event)) (m' : Mounted) :
  steps l (snd (mount q f)) = Some (t, m') ->
  let evs := fst (mount q f) ++ concat t in
  (loading_signals true evs
   = loading_signals false evs + pending_posts m'
     + dropped_posts l (snd (mount q f)))%nat.
Proof.
  intros H evs. subst evs. rewrite !loading_signals_app.
  pose proof (steps_balance _ _ _ _ (reachable_mount q f) H) as B.
  assert (M : (loading_signals true (fst (mount q f))
               = pending_posts (snd (mount q f))
               /\ loading_signals false (fst (mount q f)) = 0)%nat).
  { unfold mount.
    match goal with |- context [commit ?m0] =>
      destruct (commit_cases m0) as [(E1 & E2 & _)|(_ & id & _ & Hf)];
      [|pose proof (pending_posts_fetching _ _ m0 _ _
                      ltac:(intros k _; apply lookup_empty) Hf) as P]
    end.
    - rewrite E1. unfold pending_posts. rewrite E2. cbn.
      rewrite map_filter_empty, map_size_empty. auto.
    - rewrite P. destruct Hf as (_ & -> & _). unfold pending_posts. cbn.
      rewrite map_filter_empty, map_size_empty. auto. }
  destruct M as [M1 M2]. lia.
Qed.

Lemma loading_signals_balance_witness :
  let l := [Settle 0 (BlogsFulfilled {| contents := []; totalCount := 25 |});
            ClickPage 2; Settle 2 Rejection] in
  let m0 := snd (mount (Some (js "a")) 0) in
  let evs := fst (mount (Some (js "a")) 0)
             ++ concat [[Did (SetBlogs []); Did (SetTotalPages 3);
                         Did (SetIsLoading false)];
                        [Did (SetIsLoading true);
                         GetBlogsByCategory (js "a") 3 10;
                         GetCategory (js "a")];
                        []] in
  (loading_signals true evs
   = loading_signals false evs + pending_posts (after l m0)
     + dropped_posts l m0)%nat
  /\ loading_signals true evs = 2%nat
  /\ loading_signals false evs = 1%nat
  /\ dropped_posts l m0 = 1%nat.
Proof.
  intros l m0 evs. split; [|repeat split; vm_compute; reflexivity].
  apply (loading_signals_balance (Some (js "a")) 0 l _ (after l m0)).
  apply steps_after. vm_compute. reflexivity.
Defined.

Lemma list_kept_until_answer_witness :
  blogs (state (after [ClickPage 2] page_one_of_three))
    = blogs (state page_one_of_three)
  /\ totalPages (state (after [ClickPage 2] page_one_of_three)) = 3.
Proof.
  destruct (list_kept_until_answer page_one_of_three (ClickPage 2)
              [Did (SetIsLoading true); GetBlogsByCategory (js "a") 3 10;
               GetCategory (js "a")]
              (after [ClickPage 2] page_one_of_three))
    as (B & _ & T & _);
    [apply step_after; vm_compute; reflexivity|intros; discriminate|].
  split; [exact B|]. rewrite T. reflexivity.
Defined.


(** X9: for a total count that gives a page count [Array.from] takes (up
    to 10 * (2^32 - 1)), the page buttons appear exactly when the answered
    total count exceeds one page of 10 posts: a category of up to 10
    posts, an empty one included, shows none, and one of 11 posts shows
    two. *)
Theorem pagination_appears_above_one_page
    (m : Mounted) (n : nat) (data : BlogsData)
    (evs : list Event) (m' : Mounted) :
  reachable m ->
  0 <= totalCount data <= 10 * (2 ^ 32 - 1) ->
  step (Settle n (BlogsFulfilled data)) m = Some (evs, m') ->
  totalPages (state m') = (totalCount data + 9) / 10
  /\ totalPages (state m') < 2 ^ 32
  /\ (buttons (render (state m')) <> [] <-> blogsPerPage < totalCount data)
  /\ (totalCount data <= 0 -> totalPages (state m') <= 0).
Proof.
  intros R C H. apply reachable_invariant in R.
  change (2 ^ 32) with 4294967296 in *.
  assert (C53 : 0 <= totalCount data < first_miss)
    by (unfold first_miss; lia).
  assert (N53 : is_number (totalCount data) = true)
    by (apply is_number_small; change (2 ^ 53) with 9007199254740992; lia).
  destruct (settle_blogs _ _ _ _ _ R H) as (_ & Hs & _).
  rewrite Hs. cbn [totalPages]. rewrite pages_of_exact by assumption.
  assert (D := Z.div_mod (totalCount data + 9) 10 ltac:(lia)).
  assert (B := Z.mod_pos_bound (totalCount data + 9) 10 ltac:(lia)).
  split; [reflexivity|]. split; [lia|]. split; [|lia].
  unfold buttons, render. cbn [pagination totalPages].
  rewrite ?pages_of_exact by assumption. unfold blogsPerPage.
  destruct (Z.ltb_spec 1 ((totalCount data + 9) / 10)) as [L|L].
  - split; [lia|]. intros _. unfold page_buttons. cbn [totalPages].
    rewrite ?pages_of_exact by assumption.
    destruct (Z.to_nat ((totalCount data + 9) / 10)) eqn:E; [lia|].
    discriminate.
  - split; [congruence|lia].
Qed.

Lemma pagination_appears_above_one_page_witness :
  let ten := {| contents := []; totalCount := 10 |} in
  totalPages (state (after [Settle 0 (BlogsFulfilled ten)]
                           (snd (mount (Some (js "a")) 0)))) = 1
  /\ buttons (render (state (after [Settle 0 (BlogsFulfilled ten)]
                                   (snd (mount (Some (js "a")) 0))))) = [].
Proof.
  intros ten.
  assert (S : step (Settle 0 (BlogsFulfilled ten))
                   (snd (mount (Some (js "a")) 0))
              = Some ([Did (SetBlogs []); Did (SetTotalPages 1);
                       Did (SetIsLoading false)],
                      after [Settle 0 (BlogsFulfilled ten)]
                            (snd (mount (Some (js "a")) 0))))
    by (apply step_after; vm_compute; reflexivity).
  assert (C : 0 <= totalCount ten <= 10 * (2 ^ 32 - 1)) by (cbn; lia).
  destruct (pagination_appears_above_one_page _ _ _ _ _
              (reachable_mount _ _) C S) as (T & _ & B & _).
  split; [exact T|].
  destruct (buttons (render (state (after [Settle 0 (BlogsFulfilled ten)]
                                          (snd (mount (Some (js "a")) 0))))))
    as [|b l]; [reflexivity|].
  exfalso. assert (K : blogsPerPage < totalCount ten)
    by (apply B; discriminate).
  vm_compute in K. discriminate.
Defined.

End EventLoop.

(** ** More of the rendered view *)

Section RenderedView.
Import CategoryList.




(** X11: the [category-info] block is shown for a loaded category with a
    non-empty explanation or an image, and never empty: the paragraph is
    there exactly for a non-empty explanation, the image, with the
    category name as alternative text, exactly for a category that has
    one. *)
Theorem category_info_block (s : State) :
  match category_info (render s) with
  | Some info =>
    exists c,
      category s = Some c
      /\ (info_description info <> None \/ info_image info <> None)
      /\ info_description info =
           (if truthy_opt (explanation c) then explanation c else None)
      /\ info_image info = option_map (fun i => (url i, name c)) (image c)
      /\ info_description info <> Some []
  | None =>
    match category s with
    | Some c => truthy_opt (explanation c) = false /\ image c = None
    | None => True
    end
  end.
Proof.
  unfold render. cbn [category_info].
  destruct (category s) as [c|]; [|exact I].
  destruct (truthy_opt (explanation c)) eqn:E.
  - cbn [orb]. exists c. cbn [info_description info_image]. rewrite E.
    assert (D : explanation c <> None /\ explanation c <> Some []).
    { destruct (explanation c) as [[|x d]|]; simpl in E;
        split; congruence. }
    destruct D as [D1 D2].
    split; [reflexivity|]. split; [left; exact D1|].
    split; [reflexivity|]. split; [|exact D2].
    destruct (image c); reflexivity.
  - cbn [orb]. destruct (image c) as [i|] eqn:G.
    + exists c. rewrite G. cbn [info_description info_image option_map]. rewrite E.
      split; [reflexivity|]. split; [right; discriminate|].
      split; [reflexivity|]. split; [reflexivity|discriminate].
    + auto.
Qed.

End RenderedView.

(** ** The mounted header *)

Section MountedHeader.
Import BlogHeader.

Lemma activate_categories (c : Control) (s : State) :
  categories (snd (activate c s)) = categories s.
Proof.
  destruct c as [| | |i|mobile v|mobile]; simpl; try reflexivity.
  destruct (nth_error (categories s) i); reflexivity.
Qed.

Lemma links_lookup (s : State) (i : nat) (l : MenuLink) :
  links s !! i = Some l <->
  menuOpen s = true
  /\ exists c, nth_error (categories s) i = Some c
       /\ l = {| link_key := cat_id c;
                 href := js "/blog/category/" ++ cat_id c;
                 text := name c |}.
Proof.
  unfold links. destruct (menuOpen s).
  - rewrite lookup_map.
    assert (E : categories s !! i = nth_error (categories s) i).
    { generalize (categories s). intros cs. revert i.
      induction cs as [|x cs IH]; intros [|i]; simpl; auto. }
    rewrite E. destruct (nth_error (categories s) i) as [c|]; simpl.
    + split.
      * intros [= <-]. split; [reflexivity|]. exists c. auto.
      * intros (_ & c' & [= <-] & ->). reflexivity.
    + split; [discriminate|]. intros (_ & c' & H & _). discriminate.
  - split; [discriminate|]. intros [H _]. discriminate.
Qed.

(** X12: what the activation of a control on the page does to the menu: the
    hamburger flips it; the overlay, the close button and a category link
    are on the page only while the menu is open and close it, the click
    on the link going on to the [Link] around it with the [href] the link
    shows; typing and submitting a search leave the menu as it is. *)
Theorem header_activation
    (h : Mounted) (c : Control) (evs : list Event) (h' : Mounted) :
  step (Activate c) h = Some (evs, h') ->
  awaiting h' = awaiting h
  /\ categories (state h') = categories (state h)
  /\ match c with
     | Hamburger =>
       menuOpen (state h') = negb (menuOpen (state h)) /\ evs = []
     | Overlay | CloseButton =>
       menuOpen (state h) = true /\ menuOpen (state h') = false /\ evs = []
     | CategoryLink i =>
       menuOpen (state h) = true /\ menuOpen (state h') = false
       /\ exists l, links (state h) !! i = Some l
            /\ evs = [Caused (FollowLink (href l))]
     | SearchInput _ v =>
       menuOpen (state h') = menuOpen (state h)
       /\ searchQuery (state h') = v /\ evs = []
     | SearchForm _ =>
       state h' = state h
       /\ evs = map Caused (fst (handleSearch (state h)))
     end.
Proof.
  unfold step. destruct (rendered (state h) c) eqn:R; [|discriminate].
  destruct (activate c (state h)) as [effs s] eqn:A.
  intros [= <- <-]. simpl.
  pose proof (activate_categories c (state h)) as C. rewrite A in C.
  split; [reflexivity|]. split; [exact C|].
  unfold activate in A. unfold rendered in R.
  destruct c as [| | |i|mobile v|mobile].
  - injection A as <- <-. auto.
  - injection A as <- <-. simpl. rewrite R. auto.
  - injection A as <- <-. simpl. rewrite R. auto.
  - apply andb_true_iff in R. destruct R as [O L].
    apply Nat.ltb_lt in L.
    destruct (nth_error (categories (state h)) i) as [x|] eqn:N.
    + injection A as <- <-. unfold toggleMenu. cbn [menuOpen]. rewrite O.
      repeat split.
      exists {| link_key := cat_id x;
                href := js "/blog/category/" ++ cat_id x;
                text := name x |}.
      split; [|reflexivity].
      apply links_lookup. split; [exact O|]. exists x. auto.
    + apply nth_error_None in N. lia.
  - injection A as <- <-. auto.
  - unfold handleSearch in A. injection A as <- <-. auto.
Qed.

Lemma header_activation_witness :
  let c1 := {| cat_id := js "news"; name := js "News";
               explanation := None; image := None |} in
  let h := {| state := {| categories := [c1]; menuOpen := true;
                          searchQuery := [] |};
              awaiting := false |} in
  exists h', step (Activate (CategoryLink 0)) h
               = Some ([Caused (FollowLink (js "/blog/category/news"))], h')
             /\ menuOpen (state h') = false.
Proof.
  intros c1 h. eexists. split; [reflexivity|].
  eapply (header_activation h (CategoryLink 0)). reflexivity.
Defined.

Lemma steps_categories (l : list Input) (h : Mounted)
      (t : list (list Event)) (h' : Mounted) :
  steps l h = Some (t, h') ->
  category_list_requests (concat t) = 0%nat
  /\ categories (state h') =
       (if awaiting h
        then match answer l with
             | Some data => data
             | None => categories (state h)
             end
        else categories (state h)).
Proof.
  revert h t. induction l as [|i l IH]; intros h t; simpl.
  - intros [= <- <-]. split; [reflexivity|]. destruct (awaiting h); reflexivity.
  - destruct (step i h) as [[evs h1]|] eqn:S; [|discriminate].
    destruct (steps l h1) as [[t1 h2]|] eqn:S1; [|discriminate].
    intros [= <- <-]. destruct (IH _ _ S1) as [IH1 IH2].
    simpl. unfold category_list_requests in *.
    rewrite List.filter_app, length_app, IH1, IH2. clear IH IH1 IH2 S1.
    destruct i as [c|data|].
    + destruct (header_activation _ _ _ _ S) as (A & C & _).
      rewrite A, C. split; [|reflexivity].
      unfold step in S. destruct (rendered (state h) c); [|discriminate].
      destruct (activate c (state h)) as [effs s]. injection S as <- _.
      clear. induction effs; simpl; auto.
    + unfold step in S. destruct (awaiting h); [|discriminate].
      injection S as <- <-. simpl. auto.
    + unfold step in S. destruct (awaiting h); [|discriminate].
      injection S as <- <-. simpl. auto.
Qed.

(** X13: the menu lists the categories of the one answer of [getCategories]:
    whatever happens after the mount, the call is made once, and the
    categories held are those of its answer, or none while it is awaited
    or when it was rejected. *)
Theorem categories_fetched_once
    (l : list Input) (t : list (list Event)) (h' : Mounted) :
  steps l (snd mount) = Some (t, h') ->
  category_list_requests (fst mount ++ concat t) = 1%nat
  /\ categories (state h') =
       match answer l with Some data => data | None => [] end.
Proof.
  intros H. destruct (steps_categories _ _ _ _ H) as [R C].
  unfold category_list_requests in *. simpl in *.
  rewrite R, C. auto.
Qed.

Lemma categories_fetched_once_witness :
  let c1 := {| cat_id := js "news"; name := js "News";
               explanation := None; image := None |} in
  let l := [Activate Hamburger; CategoriesFulfilled [c1];
            Activate (CategoryLink 0)] in
  exists t h', steps l (snd mount) = Some (t, h')
               /\ categories (state h') = [c1].
Proof.
  intros c1 l. eexists _, _. split; [reflexivity|].
  eapply (categories_fetched_once l). reflexivity.
Defined.

(** X14: the two search forms share one text: what is typed into either input
    is what either form submits, raw, when its trimmed value is not
    empty; a blank text submits nothing. *)
Theorem search_forms_share_text
    (h : Mounted) (typed_in submitted_from : bool) (v : jsstring) :
  rendered (state h) (SearchInput typed_in v) = true ->
  rendered (state h) (SearchForm submitted_from) = true ->
  exists h',
    steps [Activate (SearchInput typed_in v);
           Activate (SearchForm submitted_from)] h
    = Some ([[];
             Caused PreventDefault ::
             (if forallb is_white_space v then []
              else [Caused (RouterPush (js "/blog/search?query=" ++ v))])],
            h')
    /\ searchQuery (state h') = v
    /\ menuOpen (state h') = menuOpen (state h).
Proof.
  intros R1 R2. simpl in *. rewrite R1. simpl. rewrite R2. simpl.
  destruct (forallb is_white_space v) eqn:W.
  - apply trim_nil in W. rewrite W. simpl.
    eexists. split; [reflexivity|]. split; reflexivity.
  - destruct (truthy (trim v)) eqn:T.
    + eexists. split; [reflexivity|]. split; reflexivity.
    + apply truthy_nil, trim_nil in T. congruence.
Qed.

Lemma search_forms_share_text_witness :
  exists h',
    steps [Activate (SearchInput false (js "jazz"));
           Activate (SearchForm true)]
          {| state := {| categories := []; menuOpen := true;
                         searchQuery := [] |};
             awaiting := true |}
    = Some ([[]; [Caused PreventDefault;
                  Caused (RouterPush (js "/blog/search?query=jazz"))]], h')
    /\ searchQuery (state h') = js "jazz"
    /\ menuOpen (state h') = true.
Proof.
  apply (search_forms_share_text
           {| state := {| categories := []; menuOpen := true;
                          searchQuery := [] |};
              awaiting := true |} false true (js "jazz"));
    reflexivity.
Defined.

End MountedHeader.
